(** * httpjson: JSON bodies in arbitrary character sets

    A shallow embedding of [json.go] and of [ResponseError.Error] from the
    client, with the properties of the charset-aware JSON codec stated and
    proved over it.

    Conventions.
    - A Go [byte] (an unsigned octet) is an [N]; a [[]byte] is a [list N];
      a [rune] (an int32) is a [Z].  A Go [string] used as a name (charset,
      content type, header) is a [string].
    - A destination buffer [dst] is represented by its length; what a
      transform wrote to [dst[:nDst]] is returned as a list of bytes.
    - A [transform.Transformer] is a state-passing function.
    - Collaborating packages (encoding/json, mime, ianaindex, net/http,
      x/text/transform) are fields of the record [Libs]; small executable
      instances of them are defined for the concrete scenarios. *)

From Stdlib Require Import ZArith String Ascii List Bool Lia.
From stdpp Require Import base option list strings gmap pretty.
Import ListNotations.

Local Open Scope Z_scope.

(** ** Bytes, runes and errors *)

Definition byte := N.
Definition bytes := list N.
Definition rune := Z.

(** The error values that travel through the package.  [RepertoireError]
    is x/text's [internal.RepertoireError], the one error type with a
    [Replacement() byte] method.  [errorsNew] is an error made by
    [errors.New] inside package httpjson; errors made by the collaborators
    carry the name of their package and are different values. *)
Inductive error : Type :=
| ErrShortDst
| ErrShortSrc
| RepertoireError (replacement : byte)
| errorsNew (msg : string)
| ianaindexError (msg : string)
| jsonError (msg : string)
| libError (pkg msg : string).

(** [_, ok := err.(replacementError)] *)
Definition is_replacementError (err : option error) : bool :=
  match err with
  | Some (RepertoireError _) => true
  | _ => false
  end.

(** [err == nil] *)
Definition is_nil {A} (err : option A) : bool :=
  match err with
  | None => true
  | Some _ => false
  end.

(** Result of a fallible call returning [(T, error)]. *)
Inductive result (T : Type) : Type :=
| Ok (v : T)
| Err (e : error).
Arguments Ok {T} v.
Arguments Err {T} e.

(** ** unicode/utf8 *)

Module utf8.

Definition RuneError : rune := 0xFFFD.
Definition RuneSelf : N := 0x80.
Definition MaxRune : rune := 0x10FFFF.

Definition locb : N := 0x80.
Definition hicb : N := 0xBF.
Definition maskx : N := 0x3F.
Definition mask2 : N := 0x1F.
Definition mask3 : N := 0x0F.
Definition mask4 : N := 0x07.

(** Entries of the table [first]: the low three bits are the size of the
    sequence, the high four bits index [acceptRanges]. *)
Definition xx : N := 0xF1.
Definition as_ : N := 0xF0.
Definition s1 : N := 0x02.
Definition s2 : N := 0x13.
Definition s3 : N := 0x03.
Definition s4 : N := 0x23.
Definition s5 : N := 0x34.
Definition s6 : N := 0x04.
Definition s7 : N := 0x44.

Definition first (p0 : byte) : N :=
  (if p0 <? 0x80 then as_
  else if p0 <? 0xC2 then xx
  else if p0 <? 0xE0 then s1
  else if p0 =? 0xE0 then s2
  else if p0 <? 0xED then s3
  else if p0 =? 0xED then s4
  else if p0 <? 0xF0 then s3
  else if p0 =? 0xF0 then s5
  else if p0 <? 0xF4 then s6
  else if p0 =? 0xF4 then s7
  else xx)%N.

Definition acceptRanges (i : N) : N * N :=
  (if i =? 0 then (locb, hicb)
  else if i =? 1 then (0xA0, hicb)
  else if i =? 2 then (locb, 0x9F)
  else if i =? 3 then (0x90, hicb)
  else if i =? 4 then (locb, 0x8F)
  else (0, 0))%N.

(** [rune(b & mask)] *)
Definition masked (b mask : N) : rune := Z.of_N (N.land b mask).

(** [utf8.DecodeRune]: the first rune of [p] and its width in bytes. *)
Definition DecodeRune (p : bytes) : rune * nat :=
  match p with
  | [] => (RuneError, 0%nat)
  | p0 :: t0 =>
    let x := first p0 in
    if as_ <=? x then
      (if x =? as_ then Z.of_N p0 else RuneError, 1%nat)
    else
      let sz := N.to_nat (N.land x 7) in
      let '(lo, hi) := acceptRanges (N.shiftr x 4) in
      if (length p <? sz)%nat then (RuneError, 1%nat)
      else
        match t0 with
        | [] => (RuneError, 1%nat)
        | b1 :: t1 =>
          if (b1 <? lo) || (hi <? b1) then (RuneError, 1%nat)
          else if (sz <=? 2)%nat then
            (Z.lor (Z.shiftl (masked p0 mask2) 6) (masked b1 maskx), 2%nat)
          else
            match t1 with
            | [] => (RuneError, 1%nat)
            | b2 :: t2 =>
              if (b2 <? locb) || (hicb <? b2) then (RuneError, 1%nat)
              else if (sz <=? 3)%nat then
                (Z.lor (Z.lor (Z.shiftl (masked p0 mask3) 12)
                              (Z.shiftl (masked b1 maskx) 6))
                       (masked b2 maskx), 3%nat)
              else
                match t2 with
                | [] => (RuneError, 1%nat)
                | b3 :: _ =>
                  if (b3 <? locb) || (hicb <? b3) then (RuneError, 1%nat)
                  else
                    (Z.lor (Z.lor (Z.lor (Z.shiftl (masked p0 mask4) 18)
                                         (Z.shiftl (masked b1 maskx) 12))
                                  (Z.shiftl (masked b2 maskx) 6))
                           (masked b3 maskx), 4%nat)
                end
            end
        end
  end%N.

(** [utf8.FullRune]: whether [p] begins with a full encoding of a rune
    (an invalid encoding counts as a full rune of width one). *)
Definition FullRune (p : bytes) : bool :=
  match p with
  | [] => false
  | p0 :: t0 =>
    let x := first p0 in
    if (N.to_nat (N.land x 7) <=? length p)%nat then true
    else
      let '(lo, hi) := acceptRanges (N.shiftr x 4) in
      match t0 with
      | [] => false
      | b1 :: t1 =>
        if (b1 <? lo) || (hi <? b1) then true
        else
          match t1 with
          | [] => false
          | b2 :: _ => (b2 <? locb) || (hicb <? b2)
          end
      end
  end%N.

(** [byte(x)]: conversion of an integer to a byte keeps the low 8 bits. *)
Definition to_byte (x : Z) : byte := Z.to_N (Z.land x 0xFF).

(** [utf8.EncodeRune]: the UTF-8 encoding of a rune; a rune out of range
    or a surrogate half is encoded as U+FFFD. *)
Definition EncodeRune (r : rune) : bytes :=
  if r <? 0 then [0xEF; 0xBF; 0xBD]%N
  else if r <=? 0x7F then [to_byte r]
  else if r <=? 0x7FF then
    [to_byte (Z.lor 0xC0 (Z.shiftr r 6));
     to_byte (Z.lor 0x80 (Z.land r 0x3F))]
  else if (0x10FFFF <? r) || ((0xD800 <=? r) && (r <=? 0xDFFF)) then
    [0xEF; 0xBF; 0xBD]%N
  else if r <=? 0xFFFF then
    [to_byte (Z.lor 0xE0 (Z.shiftr r 12));
     to_byte (Z.lor 0x80 (Z.land (Z.shiftr r 6) 0x3F));
     to_byte (Z.lor 0x80 (Z.land r 0x3F))]
  else
    [to_byte (Z.lor 0xF0 (Z.shiftr r 18));
     to_byte (Z.lor 0x80 (Z.land (Z.shiftr r 12) 0x3F));
     to_byte (Z.lor 0x80 (Z.land (Z.shiftr r 6) 0x3F));
     to_byte (Z.lor 0x80 (Z.land r 0x3F))].

End utf8.

(** ** unicode/utf16 *)

Module utf16.

Definition surr1 : Z := 0xd800.
Definition surr2 : Z := 0xdc00.
Definition surrSelf : Z := 0x10000.
Definition replacementChar : rune := 0xFFFD.

(** [utf16.EncodeRune]: the surrogate pair of a rune. *)
Definition EncodeRune (r : rune) : rune * rune :=
  if (r <? surrSelf) || (utf8.MaxRune <? r) then
    (replacementChar, replacementChar)
  else
    let r' := r - surrSelf in
    (surr1 + Z.land (Z.shiftr r' 10) 0x3ff, surr2 + Z.land r' 0x3ff).

End utf16.

(** ** The [\u] escape (json.go, [hexDigits] and [escape]) *)

(** [const hexDigits = "0123456789abcdef"] *)
Definition hexDigits : bytes :=
  [48; 49; 50; 51; 52; 53; 54; 55; 56; 57; 97; 98; 99; 100; 101; 102]%N.

(** [hexDigits[i]]; Go panics when the index is out of range, which is
    [None] here. *)
Definition hexDigit (i : Z) : option byte :=
  if (0 <=? i) && (i <? 16) then hexDigits !! Z.to_nat i else None.

(** [escape(b, r)] fills the six bytes of [b]; the result is the six bytes
    written, or [None] where the Go code panics ([r>>12] out of the range
    of [hexDigits]). *)
Definition escape (r : rune) : option bytes :=
  d2 ← hexDigit (Z.shiftr r 12);
  d3 ← hexDigit (Z.land (Z.shiftr r 8) 0xf);
  d4 ← hexDigit (Z.land (Z.shiftr r 4) 0xf);
  d5 ← hexDigit (Z.land r 0xf);
  Some [92; 117; d2; d3; d4; d5]%N.

(** ** Outcomes of a call

    A Go call returns, panics (an index or a slice bound out of range), or,
    for a loop run with a bound on its iterations, has not returned within
    the bound. *)
Inductive outcome (A : Type) : Type :=
| Returns (a : A)
| Panics
| OutOfFuel.
Arguments Returns {A} a.
Arguments Panics {A}.
Arguments OutOfFuel {A}.

#[export] Instance outcome_ret : MRet outcome := fun _ a => Returns a.
#[export] Instance outcome_bind : MBind outcome := fun _ _ f m =>
  match m with
  | Returns a => f a
  | Panics => Panics
  | OutOfFuel => OutOfFuel
  end.
#[export] Instance outcome_fmap : FMap outcome := fun _ _ f m =>
  match m with
  | Returns a => Returns (f a)
  | Panics => Panics
  | OutOfFuel => OutOfFuel
  end.

(** [s[n:]]: panics when [n] exceeds [len(s)]. *)
Definition slice_from {A} (s : list A) (n : nat) : outcome (list A) :=
  if (n <=? length s)%nat then Returns (drop n s) else Panics.

(** [dst[n:]] for a destination represented by its length. *)
Definition dst_from (dst n : nat) : outcome nat :=
  if (n <=? dst)%nat then Returns (dst - n)%nat else Panics.

(** [escape] at a place where the Go code indexes [hexDigits]. *)
Definition escape_call (r : rune) : outcome bytes :=
  match escape r with
  | Some b => Returns b
  | None => Panics
  end.

(** ** x/text/transform: the Transformer interface

    [Transform(dst, src, atEOF) (nDst, nSrc, err)], with the state of the
    receiver passed explicitly.  The bytes written to [dst[:nDst]] are
    returned in place of [nDst]. *)
Definition TResult : Type := bytes * nat * option error.

Record Transformer : Type := {
  tstate : Type;
  tinit : tstate;
  tTransform : tstate -> nat -> bytes -> bool -> outcome (tstate * TResult)
}.

(** ** jsonTransformer (json.go) *)

Section JsonTransformer.

(** [t.e.Transformer], the transformer of the charset's encoder. *)
Variable e : Transformer.

(** The buffer [buf] after the escapes were written: six bytes, or twelve
    for a surrogate pair. *)
Definition escape_buf (r : rune) : outcome bytes :=
  if r <? 0x10000 then escape_call r
  else
    let '(r1, r2) := utf16.EncodeRune r in
    b1 ← escape_call r1;
    b2 ← escape_call r2;
    Returns (b1 ++ b2).

(** The [for] loop of [jsonTransformer.Transform], entered with
    [dst[:nDst] = out] and [nSrc]; [fuel] bounds the iterations. *)
Fixpoint Transform_loop (fuel : nat) (s : tstate e) (dst : nat) (src : bytes)
    (atEOF : bool) (out : bytes) (nSrc : nat) : outcome (tstate e * TResult) :=
  match fuel with
  | O => OutOfFuel
  | S fuel' =>
    d ← dst_from dst (length out);
    p ← slice_from src nSrc;
    '(s1, (wr, ns, err)) ← tTransform e s d p atEOF;
    let out := out ++ wr in
    let nSrc := (nSrc + ns)%nat in
    if negb (is_replacementError err) then
      Returns (s1, (out, nSrc, err))
    else
      p ← slice_from src nSrc;
      let '(r, ns) := utf8.DecodeRune p in
      if r =? utf8.RuneError then
        Returns (s1, (out, nSrc, Some ErrShortSrc))
      else
        buf ← escape_buf r;
        d ← dst_from dst (length out);
        '(s2, (wr, _, err)) ← tTransform e s1 d buf false;
        match err with
        | Some _ => Returns (s2, (out, nSrc, err))
        | None =>
          Transform_loop fuel' s2 dst src atEOF (out ++ wr) (nSrc + ns)%nat
        end
  end.

(** [jsonTransformer.Transform]. Every iteration that does not return
    consumes at least one byte of [src], so [len(src) + 1] iterations are
    enough (lemma [Transform_loop_fuel]). *)
Definition Transform (s : tstate e) (dst : nat) (src : bytes) (atEOF : bool)
    : outcome (tstate e * TResult) :=
  Transform_loop (S (length src)) s dst src atEOF [] 0%nat.

End JsonTransformer.

(** [jsonTransformer{e: enc.NewEncoder()}] as a Transformer; [Reset] does
    nothing. *)
Definition jsonTransformer (e : Transformer) : Transformer :=
  {| tstate := tstate e; tinit := tinit e; tTransform := Transform e |}.

(** ** x/text/encoding: encodings, and the two encodings used in the tests

    The encoders and decoders below follow golang.org/x/text: the ASCII
    coder of package ianaindex and the table-driven coder of package
    charmap.  They are not part of the repository; they give the
    transcoder something to run on. *)

(** An [encoding.Encoding]: [NewEncoder().Transformer] and
    [NewDecoder().Transformer]. *)
Record Encoding : Type := {
  NewEncoder : Transformer;
  NewDecoder : Transformer
}.

(** [encoding.ASCIISub], the replacement byte announced by a
    [RepertoireError]. *)
Definition ASCIISub : byte := 0x1A%N.
Definition MaxASCII : byte := 0x7F%N.

(** A Transformer without state ([transform.NopResetter]). *)
Definition stateless (f : nat -> bytes -> bool -> outcome TResult) : Transformer :=
  {| tstate := unit; tinit := tt;
     tTransform := fun _ dst src atEOF => r ← f dst src atEOF; Returns (tt, r) |}.

(** [c :: _] in front of what the rest of a loop produced. *)
Definition emit (out : bytes) (n : nat) (r : TResult) : TResult :=
  let '(wr, ns, err) := r in (out ++ wr, (n + ns)%nat, err).

Module ianaindex.

(** [asciiEncoder.Transform]: copies ASCII bytes and stops with a
    [RepertoireError] at the first byte above [unicode.MaxASCII]. *)
Fixpoint asciiEncode (dst : nat) (src : bytes) {struct src} : TResult :=
  match src with
  | [] => ([], 0%nat, None)
  | c :: src' =>
    if (MaxASCII <? c)%N then ([], 0%nat, Some (RepertoireError ASCIISub))
    else
      match dst with
      | O => ([], 0%nat, Some ErrShortDst)
      | S dst' => emit [c] 1 (asciiEncode dst' src')
      end
  end.

(** [asciiDecoder.Transform]: copies ASCII bytes and writes U+FFFD for every
    other byte. *)
Fixpoint asciiDecode (dst : nat) (src : bytes) {struct src} : TResult :=
  match src with
  | [] => ([], 0%nat, None)
  | c :: src' =>
    if (MaxASCII <? c)%N then
      let w := utf8.EncodeRune utf8.RuneError in
      if (dst <? length w)%nat then ([], 0%nat, Some ErrShortDst)
      else emit w 1 (asciiDecode (dst - length w) src')
    else
      match dst with
      | O => ([], 0%nat, Some ErrShortDst)
      | S dst' => emit [c] 1 (asciiDecode dst' src')
      end
  end.

Definition asciiEnc : Encoding :=
  {| NewEncoder := stateless (fun dst src _ => Returns (asciiEncode dst src));
     NewDecoder := stateless (fun dst src _ => Returns (asciiDecode dst src)) |}.

End ianaindex.

Module charmap.

(** A [charmap.Charmap]: the table [decode] as a function of the byte and
    the table [encode], searched by rune, as a partial function. *)
Record Charmap : Type := {
  asciiSuperset : bool;
  replacement : byte;
  decode : byte -> rune;
  encode : rune -> option byte
}.

Section Coder.

Variable m : Charmap.

(** [charmapEncoder.Transform]; an iteration consumes at least one byte,
    so [fuel = len(src)] iterations are enough. *)
Fixpoint charmapEncode (fuel dst : nat) (src : bytes) (atEOF : bool)
    : outcome TResult :=
  match src with
  | [] => Returns ([], 0%nat, None)
  | c :: src' =>
    match fuel with
    | O => OutOfFuel
    | S fuel' =>
      match dst with
      | O => Returns ([], 0%nat, Some ErrShortDst)
      | S dst' =>
        let search (r : rune) (size : nat) : outcome TResult :=
          match encode m r with
          | None => Returns ([], 0%nat, Some (RepertoireError (replacement m)))
          | Some b =>
            emit [b] size <$> charmapEncode fuel' dst' (drop size src) atEOF
          end in
        if (c <? utf8.RuneSelf)%N then
          if asciiSuperset m then
            emit [c] 1 <$> charmapEncode fuel' dst' src' atEOF
          else search (Z.of_N c) 1%nat
        else
          let '(r, size) := utf8.DecodeRune src in
          if (size =? 1)%nat then
            if negb atEOF && negb (utf8.FullRune src) then
              Returns ([], 0%nat, Some ErrShortSrc)
            else
              Returns ([], 0%nat, Some (RepertoireError (replacement m)))
          else search r size
      end
    end
  end.

(** [charmapDecoder.Transform] *)
Fixpoint charmapDecode (dst : nat) (src : bytes) {struct src} : TResult :=
  match src with
  | [] => ([], 0%nat, None)
  | c :: src' =>
    if asciiSuperset m && (c <? utf8.RuneSelf)%N then
      match dst with
      | O => ([], 0%nat, Some ErrShortDst)
      | S dst' => emit [c] 1 (charmapDecode dst' src')
      end
    else
      let w := utf8.EncodeRune (decode m c) in
      if (dst <? length w)%nat then ([], 0%nat, Some ErrShortDst)
      else emit w 1 (charmapDecode (dst - length w) src')
  end.

Definition encoding : Encoding :=
  {| NewEncoder :=
       stateless (fun dst src atEOF => charmapEncode (length src) dst src atEOF);
     NewDecoder := stateless (fun dst src _ => Returns (charmapDecode dst src)) |}.

End Coder.

(** [charmap.ISO8859_1]: byte [b] is the code point U+00[b]. *)
Definition ISO8859_1 : Charmap :=
  {| asciiSuperset := true;
     replacement := ASCIISub;
     decode := fun b => Z.of_N b;
     encode := fun r => if (0 <=? r) && (r <? 0x100) then Some (Z.to_N r) else None |}.

End charmap.

(** ** Package strings *)

Module strings.

(** One step of the ASCII loop of [strings.EqualFold]: the two bytes are
    equal, or the smaller one is an upper-case letter and the larger one
    its lower-case form. *)
Definition foldEq (sr tr : ascii) : bool :=
  let a := N_of_ascii sr in
  let b := N_of_ascii tr in
  if (a =? b)%N then true
  else
    let '(lo, hi) := if (b <? a)%N then (b, a) else (a, b) in
    ((65 <=? lo) && (lo <=? 90) && (hi =? lo + 32))%N.

(** [strings.EqualFold], on its ASCII path.  The only use in the package
    compares with ["utf-8"], none of whose characters has a fold outside
    ASCII, so a non-ASCII byte never matches there either. *)
Fixpoint EqualFold (s t : string) : bool :=
  match s, t with
  | EmptyString, EmptyString => true
  | String a s', String b t' => foldEq a b && EqualFold s' t'
  | _, _ => false
  end.

(** [strings.HasPrefix] *)
Definition HasPrefix (s prefix : string) : bool := String.prefix prefix s.

End strings.

(** [[]byte(s)] *)
Definition bytes_of_string (s : string) : bytes :=
  map N_of_ascii (list_ascii_of_string s).

(** ** net/http: the parts of a request and of a response that the package
    reads or writes *)

Module http.

(** An [http.Header], with one value per key. *)
Abbreviation Header := (gmap string string).

(** [h.Get(key)] *)
Definition Get (h : Header) (key : string) : string := default EmptyString (h !! key).

(** [h.Set(key, value)] *)
Definition Set_ (h : Header) (key value : string) : Header := <[key := value]> h.

(** [http.Request].  [Body] and [GetBody] hold the bytes that reading them
    yields; [None] is [nil]. *)
Record Request : Type := {
  Method : string;
  URL : string;
  Header_ : Header;
  Body : option bytes;
  ContentLength : Z;
  GetBody : option bytes
}.

(** [http.Response], without its body. *)
Record Response : Type := {
  Status : string;
  StatusCode : Z;
  RespHeader : Header
}.

(** [http.ResponseWriter] *)
Class ResponseWriter (W : Type) : Type := {
  SetHeader : W -> string -> string -> W;
  WriteHeader : W -> Z -> W;
  Write : W -> option bytes -> W * option error
}.

(** [httptest.ResponseRecorder] *)
Record ResponseRecorder : Type := {
  Code : Z;
  wroteHeader : bool;
  HeaderMap : Header;
  Written : bytes
}.

Definition NewRecorder : ResponseRecorder :=
  {| Code := 200; wroteHeader := false; HeaderMap := ∅; Written := [] |}.

#[global] Instance recorder_writer : ResponseWriter ResponseRecorder := {
  SetHeader w k v :=
    {| Code := Code w; wroteHeader := wroteHeader w;
       HeaderMap := Set_ (HeaderMap w) k v; Written := Written w |};
  WriteHeader w c :=
    if wroteHeader w then w
    else {| Code := c; wroteHeader := true;
            HeaderMap := HeaderMap w; Written := Written w |};
  Write w b :=
    ({| Code := Code w; wroteHeader := true; HeaderMap := HeaderMap w;
        Written := Written w ++ default [] b |}, None)
}.

End http.

(** ** The collaborating packages *)

Record Libs : Type := {
  (** the Go values that are marshaled and unmarshaled *)
  Value : Type;
  (** [json.Marshal(v)] *)
  json_Marshal : Value -> result bytes;
  (** [json.Unmarshal(buf, v)]: the value stored through [v], or the error *)
  json_Unmarshal : bytes -> result Value;
  (** [ianaindex.MIME.Encoding(name)]: the encoding ([None] is [nil]) and
      the error of package ianaindex, given by its message *)
  MIME_Encoding : string -> option Encoding * option string;
  (** [mime.ParseMediaType(v)] *)
  ParseMediaType : string -> string * gmap string string * option error;
  (** [transform.Bytes(t, b)], which [Encoder.Bytes] and [Decoder.Bytes]
      wrap *)
  transform_Bytes : Transformer -> bytes -> outcome TResult;
  (** [bytes.TrimSpace] *)
  TrimSpace : bytes -> bytes;
  (** the checks of [http.NewRequest] on the method and the URL: the error
      it returns, if any *)
  NewRequest_check : string -> string -> option error
}.

(** ** Package httpjson (json.go, and [ResponseError] of the client) *)

(** [ResponseError] *)
Record ResponseError : Type := {
  Response : http.Response;
  RBody : bytes
}.

Section Httpjson.

Context (L : Libs).

Local Open Scope string_scope.

(** [Encoder.Bytes] and [Decoder.Bytes] of x/text/encoding: the bytes
    that [transform.Bytes] produced, or [nil] and its error. *)
Definition Coder_Bytes (t : Transformer) (b : bytes) : outcome (result bytes) :=
  '(out, _, err) ← transform_Bytes L t b;
  match err with
  | Some err => Returns (Err err)
  | None => Returns (Ok out)
  end.

(** [mtParam["charset"]]; a missing key, or a [nil] map, gives [""]. *)
Definition param (mtParam : gmap string string) (key : string) : string :=
  default "" (mtParam !! key).

(** [marshal(charset, v)] *)
Definition marshal (charset : string) (v : Value L) : outcome (result bytes) :=
  let charset := if String.eqb charset "" then "us-ascii" else charset in
  match json_Marshal L v with
  | Err err => Returns (Err err)
  | Ok buf =>
    if strings.EqualFold charset "utf-8" then Returns (Ok buf)
    else
      let '(enc, err) := MIME_Encoding L charset in
      match err with
      | Some msg => Returns (Err (ianaindexError msg))
      | None =>
        match enc with
        | None => Returns (Err (errorsNew "marshal: unsupported encoding"))
        | Some enc => Coder_Bytes (jsonTransformer (NewEncoder enc)) buf
        end
      end
  end.

(** [unmarshal(buf, charset, v)] *)
Definition unmarshal (buf : bytes) (charset : string) : outcome (result (Value L)) :=
  if negb (String.eqb charset "") && negb (strings.EqualFold charset "utf-8") then
    let '(enc, err) := MIME_Encoding L charset in
    match err with
    | Some msg => Returns (Err (ianaindexError msg))
    | None =>
      match enc with
      | None => Returns (Err (errorsNew "unmarshal: unsupported encoding"))
      | Some enc =>
        r ← Coder_Bytes (NewDecoder enc) buf;
        match r with
        | Err err => Returns (Err err)
        | Ok buf => Returns (json_Unmarshal L buf)
        end
      end
    end
  else Returns (json_Unmarshal L buf).

(** [http.NewRequest(method, url, r)], where [r] is [nil] or a
    [bytes.Reader]. *)
Definition NewRequest (method url : string) (r : option bytes) : result http.Request :=
  match NewRequest_check L method url with
  | Some err => Err err
  | None =>
    Ok {| http.Method := method; http.URL := url; http.Header_ := ∅;
          http.Body := r;
          http.ContentLength := from_option (fun b => Z.of_nat (length b)) 0 r;
          http.GetBody := r |}
  end.

(** [MarshalRequest(method, url, contentType, v)]; [v = None] is the [nil]
    interface value. *)
Definition MarshalRequest (method url contentType : string) (v : option (Value L))
    : outcome (result http.Request) :=
  let contentType :=
    if String.eqb contentType "" then "application/json;charset=utf-8"
    else contentType in
  r ← match v with
      | Some v =>
        let '(_, mtParam, _) := ParseMediaType L contentType in
        r ← marshal (param mtParam "charset") v;
        match r with
        | Ok body => Returns (Ok (Some body))
        | Err err => Returns (Err err)
        end
      | None => Returns (Ok None)
      end;
  match r with
  | Err err => Returns (Err err)
  | Ok body =>
    match NewRequest method url body with
    | Err err => Returns (Err err)
    | Ok req =>
      match body with
      | Some body =>
        Returns (Ok {| http.Method := http.Method req; http.URL := http.URL req;
                       http.Header_ := http.Set_ (http.Header_ req) "Content-Type" contentType;
                       http.Body := http.Body req;
                       http.ContentLength := Z.of_nat (length body);
                       http.GetBody := Some body |})
      | None => Returns (Ok req)
      end
    end
  end.

(** [WriteResponse(w, statusCode, contentType, v)]: the writer after the
    call and the error returned. *)
Definition WriteResponse {W} `{!http.ResponseWriter W} (w : W) (statusCode : Z)
    (contentType : string) (v : option (Value L)) : outcome (W * option error) :=
  let contentType :=
    if String.eqb contentType "" then "application/json;charset=utf-8"
    else contentType in
  r ← match v with
      | Some v =>
        let '(_, mtParam, _) := ParseMediaType L contentType in
        r ← marshal (param mtParam "charset") v;
        match r with
        | Err err => Returns (Err err)
        | Ok body =>
          let w := http.SetHeader w "Content-Type" contentType in
          let w := http.SetHeader w "Content-Length"
                     (pretty (Z.of_nat (length body))) in
          Returns (Ok (w, Some body))
        end
      | None => Returns (Ok (w, None))
      end;
  match r with
  | Err err => Returns (w, Some err)
  | Ok (w, body) =>
    let w := if (0 <? statusCode)%Z then http.WriteHeader w statusCode else w in
    Returns (http.Write w body)
  end.

(** [(e *ResponseError).Error()]; the Go string returned is given by its
    bytes. *)
Definition Error (e : ResponseError) : outcome bytes :=
  let '(mt, params, err) :=
    ParseMediaType L (http.Get (http.RespHeader (Response e)) "Content-Type") in
  let status := bytes_of_string (http.Status (Response e)) in
  if is_nil err && strings.HasPrefix mt "text/" then
    let buf := RBody e in
    let charset := param params "charset" in
    '(buf, err) ←
      (if negb (String.eqb charset "") && negb (strings.EqualFold charset "utf-8") then
         let '(enc, err) := MIME_Encoding L charset in
         match err, enc with
         | None, Some enc =>
           r ← Coder_Bytes (NewDecoder enc) buf;
           match r with
           | Ok buf => Returns (buf, None)
           | Err err => Returns ([], Some err)
           end
         | _, _ => Returns (buf, ianaindexError <$> err)
         end
       else Returns (buf, None));
    if is_nil err && (0 <? length buf)%nat && (length buf <? 256)%nat
    then Returns (TrimSpace L buf)
    else Returns status
  else Returns status.

End Httpjson.

(** ** x/text/transform: [Bytes] *)

Module transform.

(** [grow(b, n)]: the length of the new buffer. *)
Definition grow (m : nat) : nat :=
  if (m <=? 32)%nat then 64%nat
  else if (m <=? 256)%nat then (m * 2)%nat
  else (m + Nat.shiftr m 1)%nat.

(** [doAppend(t, pDst, dst, src)], entered with [dst[:pDst] = out] and
    [pSrc]; [fuel] bounds the calls of [t.Transform]. *)
Fixpoint doAppend (t : Transformer) (fuel : nat) (s : tstate t) (dst : nat)
    (src : bytes) (out : bytes) (pSrc : nat) : outcome TResult :=
  match fuel with
  | O => OutOfFuel
  | S fuel' =>
    d ← dst_from dst (length out);
    p ← slice_from src pSrc;
    '(s', (wr, nSrc, err)) ← tTransform t s d p true;
    let out := out ++ wr in
    let pSrc := (pSrc + nSrc)%nat in
    match err with
    | Some ErrShortDst =>
      let dst := if (length wr =? 0)%nat then grow dst else dst in
      doAppend t fuel' s' dst src out pSrc
    | _ => Returns (out, pSrc, err)
    end
  end.

(** [transform.Bytes(t, b)], which starts with a destination as long as
    [b].  The bound on the calls of [Transform] is generous for a
    transformer that makes progress whenever it has room. *)
Definition Bytes (t : Transformer) (b : bytes) : outcome TResult :=
  doAppend t (2 * length b + 16) (tinit t) (length b) b [] 0%nat.

End transform.

(** ** An executable instance of the collaborators

    The values are [json.RawMessage]s holding valid compact JSON text, which
    [json.Marshal] returns as it is and [json.Unmarshal] stores as it is.
    The registry knows the three charset names of the tests; the media type
    parser reads a media type followed or not by one [charset] parameter. *)

Module Tests.

Local Open Scope string_scope.

(** [strings.Index(s, sep)] for the separator [;], as a split. *)
Fixpoint cut (sep : ascii) (s : string) : string * option string :=
  match s with
  | EmptyString => (EmptyString, None)
  | String c s' =>
    if Ascii.eqb c sep then (EmptyString, Some s')
    else let '(a, b) := cut sep s' in (String c a, b)
  end.

Fixpoint trimLeft (s : string) : string :=
  match s with
  | String c s' => if Ascii.eqb c " " then trimLeft s' else s
  | EmptyString => s
  end.

Definition parseMediaType (v : string) : string * gmap string string * option error :=
  let '(mt, rest) := cut ";" v in
  if String.eqb mt "" then ("", ∅, Some (libError "mime" "no media type"))
  else
    match rest with
    | None => (mt, ∅, None)
    | Some p =>
      let '(k, val) := cut "=" (trimLeft p) in
      match val with
      | Some val => (mt, {[ k := val ]}, None)
      | None => (mt, ∅, Some (libError "mime" "invalid media parameter"))
      end
    end.

Definition mimeEncoding (name : string) : option Encoding * option string :=
  if strings.EqualFold name "us-ascii" then (Some ianaindex.asciiEnc, None)
  else if strings.EqualFold name "iso-8859-1" then
    (Some (charmap.encoding charmap.ISO8859_1), None)
  else if strings.EqualFold name "OSD_EBCDIC_DF03_IRV" then (None, None)
  else (None, Some "ianaindex: invalid encoding name").

(** [asciiSpace]: tab, line feed, vertical tab, form feed, carriage return
    and space. *)
Definition isSpace (c : byte) : bool :=
  ((9 <=? c) && (c <=? 13) || (c =? 32))%N.

Fixpoint trimLeftSpace (b : bytes) : bytes :=
  match b with
  | c :: b' => if isSpace c then trimLeftSpace b' else b
  | [] => []
  end.

Definition trimSpace (b : bytes) : bytes :=
  rev (trimLeftSpace (rev (trimLeftSpace b))).

(** A URL needs a scheme, i.e. a colon that is not its first character. *)
Definition newRequestCheck (method url : string) : option error :=
  match cut ":" url with
  | (String _ _, Some _) => None
  | _ => Some (libError "net/url" "missing protocol scheme")
  end.

Definition libs : Libs :=
  {| Value := bytes;
     json_Marshal := fun v => Ok v;
     json_Unmarshal := fun b => Ok b;
     MIME_Encoding := mimeEncoding;
     ParseMediaType := parseMediaType;
     transform_Bytes := transform.Bytes;
     TrimSpace := trimSpace;
     NewRequest_check := newRequestCheck |}.

(** The JSON text [{"s":"..."}] of a [testValue] whose string needs no
    escaping by [json.Marshal]. *)
Definition testValue (s : bytes) : bytes :=
  (bytes_of_string "{" ++ [34] ++ bytes_of_string "s" ++ [34] ++ bytes_of_string ":"
     ++ [34] ++ s ++ [34] ++ bytes_of_string "}")%list%N.

(** U+263A, U+1F602, U+00A3 and U+FFFD in UTF-8. *)
Definition smiley : bytes := [0xE2; 0x98; 0xBA]%N.
Definition joy : bytes := [0xF0; 0x9F; 0x98; 0x82]%N.
Definition pound : bytes := [0xC2; 0xA3]%N.
Definition replacement_char : bytes := [0xEF; 0xBF; 0xBD]%N.

(** The bytes of [\uXXXX] given its four digits. *)
Definition escape_text (digits : string) : bytes :=
  (bytes_of_string "\u" ++ bytes_of_string digits)%list.

(** The responses of the client tests: a server error with a short text in
    ISO-8859-1, and one without content type or body. *)
Definition charsetError : ResponseError :=
  {| Response :=
       {| http.Status := "500 Internal Server Error"; http.StatusCode := 500;
          http.RespHeader := {[ "Content-Type" := "text/plain;charset=iso-8859-1" ]} |};
     RBody := [0xA3; 10]%N |}.

Definition noMessageError : ResponseError :=
  {| Response :=
       {| http.Status := "500 Internal Server Error"; http.StatusCode := 500;
          http.RespHeader := ∅ |};
     RBody := [] |}.

End Tests.

(** ** Reference definitions

    The escape and the transcoding as the specification words them, code
    point by code point, for the code to be compared with. *)

(** The lowercase hexadecimal digit of a value below sixteen. *)
Definition hex_char (d : Z) : byte :=
  if d <? 10 then Z.to_N (48 + d) else Z.to_N (87 + d).

(** Four hexadecimal digits, zero-padded, most significant first. *)
Definition four_hex (x : Z) : bytes :=
  [hex_char (x / 4096 mod 16); hex_char (x / 256 mod 16);
   hex_char (x / 16 mod 16); hex_char (x mod 16)].

(** [\uXXXX] for a UTF-16 code unit. *)
Definition u_escape (x : Z) : bytes := [92; 117]%N ++ four_hex x.

(** The JSON escape of a code point: one [\uXXXX] below 0x10000, and the
    escapes of the high and of the low surrogate from 0x10000 on. *)
Definition json_escape (r : rune) : bytes :=
  if r <? 0x10000 then u_escape r
  else
    u_escape (0xD800 + (r - 0x10000) / 1024)
      ++ u_escape (0xDC00 + (r - 0x10000) mod 1024).

(** The output of the transcoder for a charset that extends ASCII, code
    point by code point: an ASCII byte is kept, a code point of the
    repertoire gives its native bytes ([repr]), any other code point gives
    its JSON escape.  The walk stops with [ErrShortSrc] at an incomplete or
    invalid sequence, and at a U+FFFD outside the repertoire, which the
    code takes for a failed decoding. *)
Fixpoint transcode (repr : rune -> option bytes) (fuel : nat) (src : bytes) : TResult :=
  match src with
  | [] => ([], 0%nat, None)
  | c :: src' =>
    match fuel with
    | O => ([], 0%nat, None)
    | S fuel' =>
      if (c <? 0x80)%N then emit [c] 1 (transcode repr fuel' src')
      else
        let '(r, size) := utf8.DecodeRune src in
        if (size =? 1)%nat then ([], 0%nat, Some ErrShortSrc)
        else
          match repr r with
          | Some w => emit w size (transcode repr fuel' (drop size src))
          | None =>
            if r =? utf8.RuneError then ([], 0%nat, Some ErrShortSrc)
            else emit (json_escape r) size (transcode repr fuel' (drop size src))
          end
    end
  end.

(** What the transcoder relies on in the Transformer [f] of a charset's
    encoder, for a charset that extends ASCII and has the repertoire [repr]
    beyond ASCII.  With room in [dst], [f] either encodes the code point at
    the front of [src] and goes on, or stops there having written and
    consumed nothing. *)
Record RuneEncoder (f : nat -> bytes -> bool -> outcome TResult)
    (repr : rune -> option bytes) : Prop := {
  re_nil : forall d atEOF, f d [] atEOF = Returns ([], 0%nat, None);
  re_ascii : forall d c p atEOF, (c < 0x80)%N ->
    f (S d) (c :: p) atEOF = emit [c] 1 <$> f d p atEOF;
  re_native : forall d c p atEOF r size w, (0x80 <= c)%N ->
    utf8.DecodeRune (c :: p) = (r, size) -> size <> 1%nat -> repr r = Some w ->
    f (S (length w + d)) (c :: p) atEOF = emit w size <$> f (S d) (drop size (c :: p)) atEOF;
  re_unrepresentable : forall d c p atEOF r size, (0x80 <= c)%N ->
    utf8.DecodeRune (c :: p) = (r, size) -> size <> 1%nat -> repr r = None ->
    exists rep, f (S d) (c :: p) atEOF = Returns ([], 0%nat, Some (RepertoireError rep));
  re_invalid : forall d c p atEOF r, (0x80 <= c)%N ->
    utf8.DecodeRune (c :: p) = (r, 1%nat) ->
    exists err, f (S d) (c :: p) atEOF = Returns ([], 0%nat, Some err) /\
                (err = ErrShortSrc \/ is_replacementError (Some err) = true)
}.

(** The text that [ResponseError.Error] looks at, for the amended wording
    of its description: the body as it is when the response declares no
    charset or declares UTF-8; the decoded body when the declared charset
    has a decoder; and the body as it is, undecoded, when the registry
    knows the declared charset without an implementation (the code guards
    the decoding with [enc != nil] and goes on).  An unknown charset name
    and a failed decoding give an error.  The wording of the specification
    itself, which has no text in the third case, is [claimed_body_text]. *)
Definition body_text (L : Libs) (charset : string) (body : bytes)
    : outcome (result bytes) :=
  if String.eqb charset "" || strings.EqualFold charset "utf-8" then Returns (Ok body)
  else
    match MIME_Encoding L charset with
    | (_, Some msg) => Returns (Err (ianaindexError msg))
    | (None, None) => Returns (Ok body)
    | (Some enc, None) => Coder_Bytes L (NewDecoder enc) body
    end.

(** The request that [MarshalRequest] returns for a marshaled [body]:
    what [http.NewRequest] made, with the [Content-Type] header, the
    content length and [GetBody] set. *)
Definition request_with_body (L : Libs) (method url contentType : string)
    (body : bytes) : result http.Request :=
  match NewRequest_check L method url with
  | Some err => Err err
  | None =>
    Ok {| http.Method := method; http.URL := url;
          http.Header_ := {[ "Content-Type"%string := contentType ]};
          http.Body := Some body;
          http.ContentLength := Z.of_nat (length body);
          http.GetBody := Some body |}
  end.

(** What [WriteResponse] does to the writer for a marshaled [body]: the two
    headers, the status code when there is one, and the body. *)
Definition response_with_body {W} `{!http.ResponseWriter W} (w : W)
    (statusCode : Z) (contentType : string) (body : bytes) : W * option error :=
  let w := http.SetHeader w "Content-Type" contentType in
  let w := http.SetHeader w "Content-Length" (pretty (Z.of_nat (length body))) in
  let w := if 0 <? statusCode then http.WriteHeader w statusCode else w in
  http.Write w (Some body).

(** The default content type. *)
Definition default_content_type : string := "application/json;charset=utf-8".

(** The repertoire beyond ASCII of the two encodings, as native bytes. *)
Definition ascii_repertoire : rune -> option bytes := fun _ => None.

Definition charmap_repertoire (m : charmap.Charmap) : rune -> option bytes :=
  fun r => (fun b => [b]) <$> charmap.encode m r.

(** The charset encoder [e] can represent ASCII text: given ASCII bytes it
    never reports a character outside its repertoire. *)
Definition ascii_representable (e : Transformer) : Prop :=
  forall s d buf atEOF s' wr n err,
    Forall (fun c => (c < 0x80)%N) buf ->
    tTransform e s d buf atEOF = Returns (s', (wr, n, err)) ->
    is_replacementError err = false.

(** ** The remaining functions of json.go and of the client *)

(** [strings.HasSuffix] *)
Definition HasSuffix (s suffix : string) : bool :=
  String.prefix (String.rev suffix) (String.rev s).

(** An [io.Reader] over a body, by what reading it to the end gives: the
    bytes, and the error that ended them if it was not the end of the
    data.  [bytes.NewReader(b)] is [NewReader b]. *)
Record Reader : Type := {
  read_bytes : bytes;
  read_err : option error
}.

Definition NewReader (b : bytes) : Reader := {| read_bytes := b; read_err := None |}.

(** [io.ReadAll(r)]; a [nil] reader makes the call panic. *)
Definition ReadAll (r : option Reader) : outcome (bytes * option error) :=
  match r with
  | Some r => Returns (read_bytes r, read_err r)
  | None => Panics
  end.

(** An [http.Request] as a handler receives it, and an [http.Response] as
    the client receives it: the header and the body to read. *)
Record IncomingRequest : Type := {
  in_Header : http.Header;
  in_Body : option Reader
}.

Record IncomingResponse : Type := {
  in_Response : http.Response;
  in_RespBody : option Reader
}.

(** A request on the wire: what the server reads of a request that the
    client made. *)
Definition sent (req : http.Request) : IncomingRequest :=
  {| in_Header := http.Header_ req; in_Body := NewReader <$> http.Body req |}.

(** The error values of the client: those of the package so far, a
    [*ResponseError], and the error that [fmt.Errorf] makes for a content
    type that is not JSON (its [%q] argument). *)
Inductive client_error : Type :=
| plain (err : error)
| responseError (e : ResponseError)
| unsupportedContentType (contentType : string).

Section Rest.

Context (L : Libs).

Local Open Scope string_scope.

(** [IsJSONContentType(contentType)] *)
Definition IsJSONContentType (contentType : string) : bool :=
  let '(mt, _, err) := ParseMediaType L contentType in
  match err with
  | Some _ => false
  | None =>
    if String.eqb mt "application/json" || String.eqb mt "text/json"
       || HasSuffix mt "+json"
    then true else false
  end.

(** [UnmarshalRequest(req, v)]: the value stored through [v], or the
    error. *)
Definition UnmarshalRequest (req : IncomingRequest) : outcome (result (Value L)) :=
  '(buf, err) ← ReadAll (in_Body req);
  match err with
  | Some err => Returns (Err err)
  | None =>
    let '(_, mtParam, _) := ParseMediaType L (http.Get (in_Header req) "Content-Type") in
    unmarshal L buf (param mtParam "charset")
  end.

(** [UnmarshalResponse(resp, v)] *)
Definition UnmarshalResponse (resp : IncomingResponse) : outcome (result (Value L)) :=
  '(buf, err) ← ReadAll (in_RespBody resp);
  match err with
  | Some err => Returns (Err err)
  | None =>
    let '(_, mtParam, _) :=
      ParseMediaType L (http.Get (http.RespHeader (in_Response resp)) "Content-Type") in
    unmarshal L buf (param mtParam "charset")
  end.

(** [newResponseError(resp)]: the error it returns, which is the error of
    reading the body when that fails. *)
Definition newResponseError (resp : IncomingResponse) : outcome client_error :=
  '(body, err) ← ReadAll (in_RespBody resp);
  match err with
  | Some err => Returns (plain err)
  | None => Returns (responseError {| Response := in_Response resp; RBody := body |})
  end.

(** The HTTP client, [client.Do(hreq)] with the context attached to the
    request: it acts on the world outside and returns a response or an
    error. *)
Variable World : Type.
Variable Context_ : Type.

Definition Doer : Type :=
  World -> Context_ -> http.Request -> World * result IncomingResponse.

(** [http.DefaultClient] *)
Variable DefaultHTTPClient : Doer.

(** [Client]; [None] is a [nil] field. *)
Record Client : Type := {
  HTTPClient : option Doer;
  Client_IsJSONContentType : option (string -> bool)
}.

(** [DefaultClient = &Client{}] *)
Definition DefaultClient : Client :=
  {| HTTPClient := None; Client_IsJSONContentType := None |}.

(** [(c *Client).Do(ctx, method, url, contentType, req, resp)]: the world
    after the call, and the value stored through [resp] ([inl]) or the
    error returned ([inr]). *)
Definition Client_Do (c : Client) (w : World) (ctx : Context_)
    (method url contentType : string) (req : option (Value L))
    : World * outcome (Value L + client_error) :=
  match MarshalRequest L method url contentType req with
  | Panics => (w, Panics)
  | OutOfFuel => (w, OutOfFuel)
  | Returns (Err err) => (w, Returns (inr (plain err)))
  | Returns (Ok hreq) =>
    let client := default DefaultHTTPClient (HTTPClient c) in
    let '(w, r) := client w ctx hreq in
    match r with
    | Err err => (w, Returns (inr (plain err)))
    | Ok hresp =>
      let code := http.StatusCode (in_Response hresp) in
      if negb ((200 <=? code) && (code <? 300))%Z then
        (w, inr <$> newResponseError hresp)
      else
        let isJSONContentType :=
          default IsJSONContentType (Client_IsJSONContentType c) in
        let ct := http.Get (http.RespHeader (in_Response hresp)) "Content-Type" in
        if negb (isJSONContentType ct) then
          (w, Returns (inr (unsupportedContentType ct)))
        else
          (w, r ← UnmarshalResponse hresp;
              match r with
              | Ok v => Returns (inl v)
              | Err err => Returns (inr (plain err))
              end)
    end
  end.

(** [(c *Client).Get(ctx, url, v)] *)
Definition Client_Get (c : Client) (w : World) (ctx : Context_) (url : string)
    : World * outcome (Value L + client_error) :=
  Client_Do c w ctx "GET" url "" None.

(** The package-level [Do] and [Get]. *)
Definition Do (w : World) (ctx : Context_) (method url contentType : string)
    (req : option (Value L)) : World * outcome (Value L + client_error) :=
  Client_Do DefaultClient w ctx method url contentType req.

Definition Get (w : World) (ctx : Context_) (url : string)
    : World * outcome (Value L + client_error) :=
  Client_Get DefaultClient w ctx url.

End Rest.

(** ** Reference definitions for the escapes: reading them back *)

(** The value of a hexadecimal digit, as a JSON parser reads it. *)
Definition unhex (c : byte) : option Z :=
  if (48 <=? c)%N && (c <=? 57)%N then Some (Z.of_N c - 48)
  else if (97 <=? c)%N && (c <=? 102)%N then Some (Z.of_N c - 87)
  else if (65 <=? c)%N && (c <=? 70)%N then Some (Z.of_N c - 55)
  else None.

(** The code unit that a six-byte [\uXXXX] stands for. *)
Definition parse_u_escape (b : bytes) : option Z :=
  match b with
  | [92; 117; h3; h2; h1; h0]%N =>
    d3 ← unhex h3; d2 ← unhex h2; d1 ← unhex h1; d0 ← unhex h0;
    Some (((d3 * 16 + d2) * 16 + d1) * 16 + d0)
  | _ => None
  end.

(** [utf16.DecodeRune(r1, r2)]: the code point of a surrogate pair. *)
Definition utf16_DecodeRune (r1 r2 : rune) : rune :=
  if (utf16.surr1 <=? r1) && (r1 <? utf16.surr2)
     && (utf16.surr2 <=? r2) && (r2 <? 0xe000)
  then Z.lor (Z.shiftl (r1 - utf16.surr1) 10) (r2 - utf16.surr2) + utf16.surrSelf
  else utf16.replacementChar.

(** An encoder that keeps to the contract of [Transform]: it returns,
    having written no more than [dst] holds and consumed no more than [src]
    holds. *)
Definition well_behaved (e : Transformer) : Prop :=
  forall s d p atEOF, exists s' wr ns err,
    tTransform e s d p atEOF = Returns (s', (wr, ns, err)) /\
    (length wr <= d)%nat /\ (ns <= length p)%nat.

(** An encoder that reports no error only when it consumed all of [src]. *)
Definition consumes_all (e : Transformer) : Prop :=
  forall s d p atEOF s' wr ns,
    tTransform e s d p atEOF = Returns (s', (wr, ns, None)) -> ns = length p.

(** [rr.Result()] of a [httptest.ResponseRecorder]: the response that the
    recorder holds, as a client receives it; the status text is given.  The
    header is the one of the first write: the recorder is read here after
    [WriteResponse], which sets no header once it has written. *)
Definition Result (status : string) (rr : http.ResponseRecorder) : IncomingResponse :=
  {| in_Response :=
       {| http.Status := status; http.StatusCode := http.Code rr;
          http.RespHeader := http.HeaderMap rr |};
     in_RespBody := Some (NewReader (http.Written rr)) |}.

(** The content type that [MarshalRequest] and [WriteResponse] work with. *)
Definition effective_content_type (contentType : string) : string :=
  if String.eqb contentType "" then default_content_type else contentType.

(** A transport for the examples: it keeps the requests that it is given
    and answers each of them with the same response or error. *)
Definition answering (r : result IncomingResponse) : Doer (list http.Request) unit :=
  fun w _ hreq => (w ++ [hreq], r).

(** The responses of [TestDoResponseError] ([http.NotFoundHandler]) and of
    [TestDoBadContentType], and the request that [Get] sends. *)
Definition notFound : IncomingResponse :=
  {| in_Response :=
       {| http.Status := "404 Not Found"; http.StatusCode := 404;
          http.RespHeader := {[ "Content-Type" := "text/plain; charset=utf-8" ]} |};
     in_RespBody := Some (NewReader (bytes_of_string "404 page not found" ++ [10%N])) |}.

Definition notJSON : IncomingResponse :=
  {| in_Response :=
       {| http.Status := "200 OK"; http.StatusCode := 200;
          http.RespHeader := {[ "Content-Type" := "text/plain; charset=utf-8" ]} |};
     in_RespBody := Some (NewReader (bytes_of_string "not JSON content")) |}.

(** The charset parameter of the content type that is worked with. *)
Definition charset_of (L : Libs) (contentType : string) : string :=
  param (ParseMediaType L (effective_content_type contentType)).1.2 "charset".

(** The transport that a client uses, and the predicate that it uses for
    the content type of a response. *)
Definition transport {World Context_ : Type} (DefaultHTTPClient : Doer World Context_)
    (c : Client World Context_) : Doer World Context_ :=
  default DefaultHTTPClient (HTTPClient World Context_ c).

Definition accepts (L : Libs) {World Context_ : Type} (c : Client World Context_)
    : string -> bool :=
  default (IsJSONContentType L) (Client_IsJSONContentType World Context_ c).

(** ** The message of a [ResponseError], in the specification's words

    Following the specification and not the code: the body is the message
    only when a declared charset other than UTF-8 resolves to an encoding
    and decodes without error; a charset that resolves to no encoding has
    no text. *)
Definition claimed_body_text (L : Libs) (charset : string) (body : bytes)
    : outcome (option bytes) :=
  if String.eqb charset "" || strings.EqualFold charset "utf-8" then Returns (Some body)
  else
    match MIME_Encoding L charset with
    | (Some enc, None) =>
      r ← Coder_Bytes L (NewDecoder enc) body;
      Returns match r with Ok buf => Some buf | Err _ => None end
    | _ => Returns None
    end.

Definition claimed_Error (L : Libs) (e : ResponseError) : outcome bytes :=
  let '(mt, params, err) :=
    ParseMediaType L (http.Get (http.RespHeader (Response e)) "Content-Type") in
  let status := bytes_of_string (http.Status (Response e)) in
  if is_nil err && strings.HasPrefix mt "text/" then
    text ← claimed_body_text L (param params "charset") (RBody e);
    match text with
    | Some buf =>
      if (0 <? length buf)%nat && (length buf <? 256)%nat
      then Returns (TrimSpace L buf) else Returns status
    | None => Returns status
    end
  else Returns status.

(** A response in a charset that the registry knows without an
    implementation. *)
Definition unsupportedCharsetError : ResponseError :=
  {| Response :=
       {| http.Status := "500 Internal Server Error"; http.StatusCode := 500;
          http.RespHeader :=
            {[ "Content-Type" := "text/plain;charset=OSD_EBCDIC_DF03_IRV" ]} |};
     RBody := bytes_of_string "oops" ++ [10%N] |}.

(** A lower-case hexadecimal digit, in ASCII. *)
Definition lower_hex_digit (c : byte) : bool :=
  ((48 <=? c) && (c <=? 57) || (97 <=? c) && (c <=? 102))%N.

(** * Properties *)

(** ** Decoding one rune *)

Lemma masked_nonneg b m : 0 <= utf8.masked b m.
Proof. unfold utf8.masked. lia. Qed.

Lemma DecodeRune_nonneg p : 0 <= (utf8.DecodeRune p).1.
Proof.
  pose proof masked_nonneg as Hm.
  unfold utf8.DecodeRune.
  repeat case_match; simpl; try (unfold utf8.RuneError; lia);
    repeat first [apply Z.lor_nonneg; split | apply Z.shiftl_nonneg | apply Hm].
Qed.

Lemma DecodeRune_size_pos c p : (1 <= (utf8.DecodeRune (c :: p)).2)%nat.
Proof. unfold utf8.DecodeRune. repeat case_match; simpl; lia. Qed.

Lemma DecodeRune_size_le p : ((utf8.DecodeRune p).2 <= length p)%nat.
Proof. unfold utf8.DecodeRune. repeat case_match; simpl; lia. Qed.

Lemma DecodeRune_invalid c p r :
  (0x80 <= c)%N -> utf8.DecodeRune (c :: p) = (r, 1%nat) -> r = utf8.RuneError.
Proof.
  intros Hc. unfold utf8.DecodeRune, utf8.first.
  destruct (N.ltb_spec c 128) as [Hlt|_]; [lia|].
  repeat case_match; intros [= <-]; try reflexivity; discriminate.
Qed.

Lemma DecodeRune_not_error_cons p r size :
  utf8.DecodeRune p = (r, size) -> r <> utf8.RuneError ->
  exists c p', p = c :: p' /\ (1 <= size <= length p)%nat.
Proof.
  intros Hd Hr. destruct p as [|c p'].
  - simpl in Hd. injection Hd as <- <-. contradiction.
  - exists c, p'. split; [reflexivity|].
    pose proof (DecodeRune_size_pos c p'). pose proof (DecodeRune_size_le (c :: p')).
    rewrite Hd in *. simpl in *. lia.
Qed.

(** ** The escape *)

Lemma hexDigit_char i : 0 <= i < 16 -> hexDigit i = Some (hex_char i).
Proof.
  intros Hi.
  assert (i = 0 \/ i = 1 \/ i = 2 \/ i = 3 \/ i = 4 \/ i = 5 \/ i = 6 \/ i = 7 \/
          i = 8 \/ i = 9 \/ i = 10 \/ i = 11 \/ i = 12 \/ i = 13 \/ i = 14 \/ i = 15)
    as Hcases by lia.
  repeat (destruct Hcases as [->|Hcases]; [reflexivity|]). subst i. reflexivity.
Qed.

Lemma land_0xf x : Z.land x 0xf = x mod 16.
Proof. change 0xf with (Z.ones 4). rewrite Z.land_ones by lia. reflexivity. Qed.

Lemma land_0x3ff x : Z.land x 0x3ff = x mod 1024.
Proof. change 0x3ff with (Z.ones 10). rewrite Z.land_ones by lia. reflexivity. Qed.

(** [escape] writes a backslash, [u] and the four lowercase hexadecimal
    digits of a 16-bit value, and does not panic on one. *)
Lemma escape_u_escape r : 0 <= r < 0x10000 -> escape r = Some (u_escape r).
Proof.
  intros Hr. unfold escape, u_escape, four_hex.
  rewrite !land_0xf, !Z.shiftr_div_pow2 by lia.
  change (2 ^ 12) with 4096. change (2 ^ 8) with 256. change (2 ^ 4) with 16.
  rewrite (Z.mod_small (r / 4096) 16) by (split; [apply Z.div_pos|apply Z.div_lt_upper_bound]; lia).
  rewrite !hexDigit_char; [reflexivity| | | |];
    try (apply Z.mod_pos_bound; lia).
  split; [apply Z.div_pos|apply Z.div_lt_upper_bound]; lia.
Qed.

(** The buffer handed to the charset encoder holds the JSON escape of the
    code point: one escape below 0x10000, the surrogate pair above. *)
Lemma escape_buf_json_escape r :
  0 <= r <= utf8.MaxRune -> escape_buf r = Returns (json_escape r).
Proof.
  intros Hr. unfold escape_buf, json_escape, utf8.MaxRune in *.
  destruct (Z.ltb_spec r 0x10000) as [Hlt|Hge].
  - unfold escape_call. rewrite escape_u_escape by lia. reflexivity.
  - unfold utf16.EncodeRune, utf16.surrSelf, utf16.surr1, utf16.surr2, utf8.MaxRune.
    destruct (Z.ltb_spec r 65536) as [?|_]; [lia|].
    destruct (Z.ltb_spec 1114111 r) as [?|_]; [lia|]. simpl orb. cbv iota.
    rewrite !land_0x3ff, Z.shiftr_div_pow2 by lia. change (2 ^ 10) with 1024.
    assert (0 <= (r - 65536) / 1024 < 1024) as Hhi
      by (split; [apply Z.div_pos|apply Z.div_lt_upper_bound]; lia).
    rewrite (Z.mod_small _ 1024 Hhi).
    pose proof (Z.mod_pos_bound (r - 65536) 1024 ltac:(lia)) as Hlo.
    unfold escape_call. rewrite !escape_u_escape by lia. reflexivity.
Qed.

Lemma hex_char_ascii d : 0 <= d < 16 -> (hex_char d < 0x80)%N.
Proof. intros Hd. unfold hex_char. destruct (d <? 10); lia. Qed.

Lemma u_escape_ascii x : Forall (fun c => (c < 0x80)%N) (u_escape x).
Proof.
  unfold u_escape, four_hex.
  repeat (apply Forall_cons; split); try apply Forall_nil; try lia;
    apply hex_char_ascii; try (apply Z.mod_pos_bound; lia).
Qed.

Lemma json_escape_ascii r : Forall (fun c => (c < 0x80)%N) (json_escape r).
Proof.
  unfold json_escape. destruct (r <? 0x10000).
  - apply u_escape_ascii.
  - apply Forall_app; split; apply u_escape_ascii.
Qed.

Lemma masked_mod b k : utf8.masked b (N.ones k) = Z.of_N b mod 2 ^ Z.of_N k.
Proof.
  unfold utf8.masked. rewrite N2Z.inj_land.
  replace (Z.of_N (N.ones k)) with (Z.ones (Z.of_N k)).
  - apply Z.land_ones. lia.
  - rewrite Z.ones_equiv, N.ones_equiv, N2Z.inj_pred, N2Z.inj_pow; [reflexivity|].
    apply N.neq_0_lt_0, N.pow_nonzero. discriminate.
Qed.

Lemma lor_le_add x y : 0 <= x -> 0 <= y -> Z.lor x y <= x + y.
Proof.
  intros Hx Hy. pose proof (Z.add_lor_land x y).
  assert (0 <= Z.land x y) by (apply Z.land_nonneg; auto). lia.
Qed.

Ltac bool_to_prop :=
  repeat match goal with
  | H : (_ <? _)%N = true |- _ => apply N.ltb_lt in H
  | H : (_ <? _)%N = false |- _ => apply N.ltb_ge in H
  | H : (_ <=? _)%N = true |- _ => apply N.leb_le in H
  | H : (_ <=? _)%N = false |- _ => apply N.leb_gt in H
  | H : (_ =? _)%N = true |- _ => apply N.eqb_eq in H
  | H : (_ =? _)%N = false |- _ => apply N.eqb_neq in H
  | H : (_ || _) = false |- _ => apply orb_false_elim in H; destruct H
  | H : (_ || _) = true |- _ => apply orb_true_iff in H
  end.

Lemma masked_maskx b : utf8.masked b utf8.maskx = Z.of_N b mod 64.
Proof. exact (masked_mod b 6). Qed.
Lemma masked_mask2 b : utf8.masked b utf8.mask2 = Z.of_N b mod 32.
Proof. exact (masked_mod b 5). Qed.
Lemma masked_mask3 b : utf8.masked b utf8.mask3 = Z.of_N b mod 16.
Proof. exact (masked_mod b 4). Qed.
Lemma masked_mask4 b : utf8.masked b utf8.mask4 = Z.of_N b mod 8.
Proof. exact (masked_mod b 3). Qed.

Lemma shiftl_6 x : Z.shiftl x 6 = x * 64.
Proof. apply Z.shiftl_mul_pow2. lia. Qed.
Lemma shiftl_12 x : Z.shiftl x 12 = x * 4096.
Proof. apply Z.shiftl_mul_pow2. lia. Qed.
Lemma shiftl_18 x : Z.shiftl x 18 = x * 262144.
Proof. apply Z.shiftl_mul_pow2. lia. Qed.

(** Bounds on a [|] of non-negative fields, innermost first. *)
Ltac bound_lor t :=
  lazymatch t with
  | Z.lor ?a ?b =>
    bound_lor a; bound_lor b;
    assert (0 <= Z.lor a b <= a + b)
      by (split; [apply Z.lor_nonneg; split; lia | apply lor_le_add; lia])
  | _ => idtac
  end.

Ltac fields_to_arith :=
  rewrite ?masked_maskx, ?masked_mask2, ?masked_mask3, ?masked_mask4,
          ?shiftl_6, ?shiftl_12, ?shiftl_18;
  Z.div_mod_to_equations.

(** A decoded rune is a Unicode code point. *)
Lemma DecodeRune_le_MaxRune p : (utf8.DecodeRune p).1 <= utf8.MaxRune.
Proof.
  unfold utf8.DecodeRune, utf8.first, utf8.MaxRune, utf8.RuneError.
  destruct p as [|p0 t0]; [simpl; lia|].
  repeat (case_match; simpl fst; try lia); bool_to_prop;
    try (match goal with H : utf8.acceptRanges _ = _ |- _ =>
           vm_compute in H; injection H as <- <- end);
    try lia.
  all: try discriminate.
  all: unfold utf8.locb, utf8.hicb in *; fields_to_arith;
       match goal with |- ?r <= _ => bound_lor r end; lia.
Qed.

(** A sequence that is not a full rune does not decode. *)
Lemma DecodeRune_not_FullRune p :
  utf8.FullRune p = false -> (utf8.DecodeRune p).1 = utf8.RuneError.
Proof.
  unfold utf8.FullRune, utf8.DecodeRune, utf8.first.
  destruct p as [|p0 t0]; [reflexivity|].
  repeat (case_match; simpl fst; simpl length in *; try reflexivity; try discriminate);
    intros Hf; bool_to_prop; try discriminate; try reflexivity.
  all: try (match goal with H : (_ <=? _)%nat = false |- _ =>
              apply Nat.leb_gt in H; vm_compute in H; lia end).
Qed.

(** ** The loop of [jsonTransformer.Transform] *)

Lemma dst_from_ok dst n : (n <= dst)%nat -> dst_from dst n = Returns (dst - n)%nat.
Proof. intros H. unfold dst_from. destruct (Nat.leb_spec n dst); [reflexivity|lia]. Qed.

Lemma slice_from_ok {A} (s : list A) n :
  (n <= length s)%nat -> slice_from s n = Returns (drop n s).
Proof. intros H. unfold slice_from. destruct (Nat.leb_spec n (length s)); [reflexivity|lia]. Qed.


Section TransformLoop.

Variable e : Transformer.

(** The bound on the iterations is never reached: with more iterations
    allowed than bytes left in [src], any bound gives the same outcome. *)
Lemma Transform_loop_fuel fuel : forall fuel' s dst src atEOF out nSrc,
  (length src - nSrc < fuel)%nat -> (length src - nSrc < fuel')%nat ->
  Transform_loop e fuel s dst src atEOF out nSrc =
  Transform_loop e fuel' s dst src atEOF out nSrc.
Proof.
  induction fuel as [|fuel IH]; intros fuel' s dst src atEOF out nSrc H1 H2; [lia|].
  destruct fuel' as [|fuel']; [lia|].
  cbn [Transform_loop].
  destruct (dst_from dst (length out)) as [d| |]; simpl; try reflexivity.
  destruct (slice_from src nSrc) as [p| |]; simpl; try reflexivity.
  destruct (tTransform e s d p atEOF) as [[s1 [[wr ns] err]]| |]; simpl; try reflexivity.
  destruct (negb (is_replacementError err)); try reflexivity.
  unfold slice_from.
  destruct (Nat.leb_spec (nSrc + ns) (length src)) as [Hle|]; simpl; try reflexivity.
  destruct (utf8.DecodeRune (drop (nSrc + ns) src)) as [r size] eqn:Hd.
  destruct (Z.eqb_spec r utf8.RuneError) as [Heq|Hr]; try reflexivity.
  destruct (escape_buf r) as [buf| |]; simpl; try reflexivity.
  destruct (dst_from dst (length (out ++ wr))) as [d'| |]; simpl; try reflexivity.
  destruct (tTransform e s1 d' buf false) as [[s2 [[wr2 ?] err2]]| |]; simpl; try reflexivity.
  destruct err2; try reflexivity.
  destruct (DecodeRune_not_error_cons _ _ _ Hd Hr) as (c & p' & Hp & Hsize).
  assert (length (drop (nSrc + ns) src) = (length src - (nSrc + ns))%nat) as Hlen
    by apply length_drop.
  rewrite Hp in Hlen. simpl in Hlen.
  apply IH; lia.
Qed.

(** A call of the charset encoder that ends without a replacement error
    is the whole of [Transform]: what was written and consumed, and the
    error, are handed to the caller as they are. *)
Lemma Transform_passes s dst src atEOF s1 wr ns err :
  tTransform e s dst src atEOF = Returns (s1, (wr, ns, err)) ->
  is_replacementError err = false ->
  Transform e s dst src atEOF = Returns (s1, (wr, ns, err)).
Proof.
  intros Hcall Herr. unfold Transform. cbn [Transform_loop].
  unfold dst_from, slice_from. simpl. rewrite Nat.sub_0_r, drop_0, Hcall. simpl.
  rewrite Herr. reflexivity.
Qed.

(** After a replacement error, a source that does not hold a full rune at
    the position reached makes [Transform] ask for more input. *)
Lemma Transform_short_src s dst src atEOF s1 wr ns rep :
  tTransform e s dst src atEOF = Returns (s1, (wr, ns, Some (RepertoireError rep))) ->
  (ns <= length src)%nat ->
  utf8.FullRune (drop ns src) = false ->
  Transform e s dst src atEOF = Returns (s1, (wr, ns, Some ErrShortSrc)).
Proof.
  intros Hcall Hns Hfull. unfold Transform. cbn [Transform_loop].
  unfold dst_from, slice_from. simpl. rewrite Nat.sub_0_r, drop_0, Hcall. simpl.
  destruct (Nat.leb_spec ns (length src)) as [_|?]; [|lia]. simpl.
  pose proof (DecodeRune_not_FullRune _ Hfull) as Hd.
  destruct (utf8.DecodeRune (drop ns src)) as [r size]. simpl in Hd. subst r.
  reflexivity.
Qed.

(** After a replacement error at a U+FFFD of the source, [Transform] also
    asks for more input, although the rune is complete. *)
Lemma Transform_replacement_char s dst src atEOF s1 wr ns rep rest :
  tTransform e s dst src atEOF = Returns (s1, (wr, ns, Some (RepertoireError rep))) ->
  (ns <= length src)%nat ->
  drop ns src = (0xEF :: 0xBF :: 0xBD :: rest)%N ->
  Transform e s dst src atEOF = Returns (s1, (wr, ns, Some ErrShortSrc)).
Proof.
  intros Hcall Hns Hrest. unfold Transform. cbn [Transform_loop].
  unfold dst_from, slice_from. simpl. rewrite Nat.sub_0_r, drop_0, Hcall. simpl.
  destruct (Nat.leb_spec ns (length src)) as [_|?]; [|lia]. simpl.
  rewrite Hrest. reflexivity.
Qed.

(** After a replacement error at a complete rune other than U+FFFD, the
    escape of that one rune is handed to the charset encoder: an error of
    that call is returned as it is, and without one the loop goes on past
    the rune. *)
Lemma Transform_escape_step s dst src atEOF s1 wr ns rep r size s2 wr2 n2 err2 :
  tTransform e s dst src atEOF = Returns (s1, (wr, ns, Some (RepertoireError rep))) ->
  (ns <= length src)%nat -> (length wr <= dst)%nat ->
  utf8.DecodeRune (drop ns src) = (r, size) -> r <> utf8.RuneError ->
  tTransform e s1 (dst - length wr) (json_escape r) false = Returns (s2, (wr2, n2, err2)) ->
  Transform e s dst src atEOF =
  match err2 with
  | Some _ => Returns (s2, (wr, ns, err2))
  | None => Transform_loop e (length src) s2 dst src atEOF (wr ++ wr2) (ns + size)
  end.
Proof.
  intros Hcall Hns Hwr Hdec Hr Hesc. unfold Transform. cbn [Transform_loop].
  rewrite dst_from_ok, slice_from_ok by (simpl; lia).
  simpl. rewrite Nat.sub_0_r, drop_0, Hcall. simpl.
  rewrite (slice_from_ok src ns) by lia. simpl. rewrite Hdec.
  destruct (Z.eqb_spec r utf8.RuneError) as [?|_]; [contradiction|].
  pose proof (DecodeRune_nonneg (drop ns src)) as Hlo.
  pose proof (DecodeRune_le_MaxRune (drop ns src)) as Hhi.
  rewrite Hdec in Hlo, Hhi. simpl in Hlo, Hhi.
  rewrite escape_buf_json_escape by lia. simpl.
  rewrite dst_from_ok by lia. simpl. rewrite Hesc. simpl.
  destruct err2; reflexivity.
Qed.

(** When the charset can represent ASCII, no replacement error ever leaves
    the loop. *)
Lemma Transform_loop_no_replacement :
  ascii_representable e ->
  forall fuel s dst src atEOF out nSrc s' out' n err,
    Transform_loop e fuel s dst src atEOF out nSrc = Returns (s', (out', n, err)) ->
    is_replacementError err = false.
Proof.
  intros Hascii. induction fuel as [|fuel IH];
    intros s dst src atEOF out nSrc s' out' n err; [discriminate|].
  cbn [Transform_loop].
  destruct (dst_from dst (length out)) as [d| |]; simpl; try discriminate.
  destruct (slice_from src nSrc) as [p| |]; simpl; try discriminate.
  destruct (tTransform e s d p atEOF) as [[s1 [[wr ns] err1]]| |]; simpl; try discriminate.
  destruct (is_replacementError err1) eqn:Herr1; simpl.
  2:{ intros [= <- <- <- <-]. exact Herr1. }
  destruct (slice_from src (nSrc + ns)) as [p'| |]; simpl; try discriminate.
  pose proof (DecodeRune_nonneg p') as Hlo.
  pose proof (DecodeRune_le_MaxRune p') as Hhi.
  destruct (utf8.DecodeRune p') as [r size]. simpl in Hlo, Hhi.
  destruct (r =? utf8.RuneError); [intros [= <- <- <- <-]; reflexivity|].
  rewrite escape_buf_json_escape by lia. simpl.
  destruct (dst_from dst (length (out ++ wr))) as [d'| |]; simpl; try discriminate.
  destruct (tTransform e s1 d' (json_escape r) false) as [[s2 [[wr2 n2] err2]]| |] eqn:Hcall;
    simpl; try discriminate.
  destruct err2 as [err2|].
  - intros [= <- <- <- <-].
    exact (Hascii _ _ _ _ _ _ _ _ (json_escape_ascii r) Hcall).
  - apply IH.
Qed.

End TransformLoop.

(** ** The transcoder over a charset that extends ASCII *)

(** The walk of [transcode] ends before its bound. *)
Lemma transcode_fuel repr fuel : forall fuel' src,
  (length src <= fuel)%nat -> (length src <= fuel')%nat ->
  transcode repr fuel src = transcode repr fuel' src.
Proof.
  induction fuel as [|fuel IH]; intros fuel' src H1 H2.
  - destruct src; [destruct fuel'; reflexivity|simpl in H1; lia].
  - destruct src as [|c src']; [destruct fuel'; reflexivity|].
    destruct fuel' as [|fuel']; [simpl in H2; lia|].
    simpl in H1, H2. cbn [transcode].
    rewrite (IH fuel' src') by lia.
    pose proof (DecodeRune_size_pos c src') as Hpos.
    destruct (utf8.DecodeRune (c :: src')) as [r size]. simpl in Hpos.
    assert (length (drop size (c :: src')) <= fuel)%nat as Hl1
      by (rewrite length_drop; simpl; lia).
    assert (length (drop size (c :: src')) <= fuel')%nat as Hl2
      by (rewrite length_drop; simpl; lia).
    rewrite (IH fuel' _ Hl1 Hl2). reflexivity.
Qed.

Section RuneByRune.

Variable f : nat -> bytes -> bool -> outcome TResult.
Variable repr : rune -> option bytes.
Hypothesis Hre : RuneEncoder f repr.

(** ASCII text goes through the charset encoder unchanged. *)
Lemma re_ascii_run buf : forall d atEOF,
  Forall (fun c => (c < 0x80)%N) buf -> (length buf <= d)%nat ->
  f d buf atEOF = Returns (buf, length buf, None).
Proof.
  induction buf as [|c buf IH]; intros d atEOF Hascii Hd.
  - apply (re_nil _ _ Hre).
  - apply Forall_cons in Hascii as [Hc Hascii]. simpl in Hd.
    destruct d as [|d]; [lia|].
    rewrite (re_ascii _ _ Hre) by exact Hc.
    rewrite IH by (auto; lia). reflexivity.
Qed.

(** When the charset encoder takes the code point at the front and goes
    on, the loop is in the same position as if it had been entered past
    that code point. *)
Lemma Transform_loop_shift fuel dst src atEOF out nSrc w size d :
  (length out + length w + d = dst)%nat -> (nSrc + size <= length src)%nat ->
  f (length w + d) (drop nSrc src) atEOF =
    emit w size <$> f d (drop (nSrc + size) src) atEOF ->
  Transform_loop (stateless f) fuel tt dst src atEOF out nSrc =
  Transform_loop (stateless f) fuel tt dst src atEOF (out ++ w) (nSrc + size).
Proof.
  intros Hd Hn Hf. destruct fuel as [|fuel]; [reflexivity|].
  cbn [Transform_loop].
  rewrite !dst_from_ok by (rewrite ?length_app; lia).
  rewrite !slice_from_ok by lia. simpl.
  replace (dst - length out)%nat with (length w + d)%nat by lia.
  replace (dst - length (out ++ w))%nat with d by (rewrite length_app; lia).
  rewrite Hf.
  destruct (f d (drop (nSrc + size) src) atEOF) as [[[wr ns] err]| |]; simpl;
    try reflexivity.
  rewrite !app_assoc, !Nat.add_assoc. reflexivity.
Qed.

(** The loop produces what [transcode] describes, from any position, when
    the destination has room to spare. *)
Lemma Transform_loop_transcode atEOF dst src n : forall fuel out nSrc o k err,
  (nSrc <= length src)%nat -> (length src - nSrc <= n)%nat ->
  (length src - nSrc < fuel)%nat ->
  transcode repr (length src - nSrc) (drop nSrc src) = (o, k, err) ->
  (length out + length o < dst)%nat ->
  Transform_loop (stateless f) fuel tt dst src atEOF out nSrc =
    Returns (tt, (out ++ o, (nSrc + k)%nat, err)).
Proof.
  induction n as [|n IH]; intros fuel out nSrc o k err Hn Hrem Hfuel Ht Hroom.
  - (* nothing is left *)
    assert (drop nSrc src = []) as Hnil by (apply drop_ge; lia).
    rewrite Hnil in Ht. destruct (length src - nSrc)%nat; simpl in Ht;
      injection Ht as <- <- <-;
      (destruct fuel as [|fuel]; [lia|]); cbn [Transform_loop];
      rewrite dst_from_ok, slice_from_ok by lia; simpl;
      rewrite Hnil, (re_nil _ _ Hre); simpl; reflexivity.
  - destruct (drop nSrc src) as [|c rest] eqn:Hrest.
    { (* nothing is left *)
      destruct (length src - nSrc)%nat; simpl in Ht; injection Ht as <- <- <-;
      (destruct fuel as [|fuel]; [lia|]); cbn [Transform_loop];
      rewrite dst_from_ok, slice_from_ok by lia; simpl;
      rewrite Hrest, (re_nil _ _ Hre); simpl; reflexivity. }
    assert (length src - nSrc = S (length rest))%nat as Hlen
      by (rewrite <- length_drop, Hrest; reflexivity).
    rewrite Hlen in Ht. cbn [transcode] in Ht.
    destruct (dst - length out)%nat as [|d] eqn:Hd; [lia|].
    assert (forall size, drop (nSrc + size) src = drop size (c :: rest)) as Hdrop
      by (intros size; rewrite <- Hrest, drop_drop; reflexivity).
    destruct (N.ltb_spec c 128) as [Hc|Hc].
    + (* an ASCII byte *)
      destruct (transcode repr (length rest) rest) as [[o' k'] err'] eqn:Ht'.
      simpl in Ht. injection Ht as <- <- <-.
      rewrite (Transform_loop_shift fuel dst src atEOF out nSrc [c] 1 d);
        try (simpl; lia).
      2:{ rewrite Hrest, Hdrop. apply (re_ascii _ _ Hre). exact Hc. }
      rewrite (IH fuel (out ++ [c]) (nSrc + 1)%nat o' k' err'); try lia.
      * rewrite <- app_assoc, <- Nat.add_assoc. reflexivity.
      * rewrite Hdrop. simpl drop.
        rewrite <- Ht'. apply transcode_fuel; lia.
      * rewrite length_app. simpl in *. lia.
    + pose proof (DecodeRune_size_pos c rest) as Hpos.
      pose proof (DecodeRune_size_le (c :: rest)) as Hle.
      destruct (utf8.DecodeRune (c :: rest)) as [r size] eqn:Hdec.
      simpl in Hpos, Hle.
      destruct (Nat.eqb_spec size 1) as [->|Hsize].
      * (* an incomplete or invalid sequence *)
        injection Ht as <- <- <-.
        destruct (re_invalid _ _ Hre d c rest atEOF r Hc Hdec) as (err & Hf & Herr).
        destruct fuel as [|fuel]; [lia|]. cbn [Transform_loop].
        rewrite dst_from_ok, slice_from_ok by lia. simpl.
        rewrite Hd, Hrest, Hf.
        destruct Herr as [->|Herr]; simpl.
        { rewrite app_nil_r, Nat.add_0_r. reflexivity. }
        destruct err; try discriminate Herr. simpl.
        rewrite app_nil_r, Nat.add_0_r.
        rewrite slice_from_ok by lia. simpl. rewrite Hrest, Hdec.
        rewrite (DecodeRune_invalid c rest r Hc Hdec). reflexivity.
      * destruct (repr r) as [w|] eqn:Hrepr.
        -- (* a code point of the repertoire *)
          destruct (transcode repr (length rest) (drop size (c :: rest)))
            as [[o' k'] err'] eqn:Ht'.
          simpl in Ht. injection Ht as <- <- <-.
          rewrite length_app in Hroom.
          destruct (dst - length out - length w)%nat as [|d'] eqn:Hd'; [lia|].
          rewrite (Transform_loop_shift fuel dst src atEOF out nSrc w size (S d'));
            try lia.
          2:{ rewrite Hrest, Hdrop.
              replace (length w + S d')%nat with (S (length w + d'))%nat by lia.
              apply (re_native _ _ Hre) with (r := r); auto. }
          etransitivity; [apply (IH fuel _ _ o' k' err'); try lia|].
          ++ rewrite Hdrop. rewrite <- Ht'. apply transcode_fuel.
             ** rewrite length_drop. simpl. lia.
             ** rewrite length_drop. simpl. lia.
          ++ rewrite length_app. lia.
          ++ rewrite <- app_assoc, <- Nat.add_assoc. reflexivity.
        -- (* a code point outside the repertoire *)
          destruct (re_unrepresentable _ _ Hre d c rest atEOF r size Hc Hdec Hsize Hrepr)
            as (rep & Hf).
          destruct fuel as [|fuel]; [lia|]. cbn [Transform_loop].
          rewrite dst_from_ok, slice_from_ok by lia. simpl.
          rewrite Hd, Hrest, Hf. simpl.
          rewrite app_nil_r, Nat.add_0_r.
          rewrite slice_from_ok by lia. simpl. rewrite Hrest, Hdec.
          destruct (Z.eqb_spec r utf8.RuneError) as [Hr|Hr].
          { injection Ht as <- <- <-. rewrite app_nil_r, Nat.add_0_r. reflexivity. }
          destruct (transcode repr (length rest) (drop size (c :: rest)))
            as [[o' k'] err'] eqn:Ht'.
          simpl in Ht. injection Ht as <- <- <-.
          pose proof (DecodeRune_nonneg (c :: rest)) as Hlo.
          pose proof (DecodeRune_le_MaxRune (c :: rest)) as Hhi.
          rewrite Hdec in Hlo, Hhi. simpl in Hlo, Hhi.
          rewrite escape_buf_json_escape by lia. simpl.
          rewrite length_app in Hroom.
          rewrite dst_from_ok by lia. simpl.
          rewrite (re_ascii_run (json_escape r)) by (try apply json_escape_ascii; lia).
          simpl.
          rewrite (IH fuel (out ++ json_escape r) (nSrc + size)%nat o' k' err'); try lia.
          ++ rewrite <- app_assoc, <- Nat.add_assoc. reflexivity.
          ++ rewrite Hdrop. rewrite <- Ht'. apply transcode_fuel.
             ** rewrite length_drop. simpl. lia.
             ** rewrite length_drop. simpl. lia.
          ++ rewrite length_app. lia.
Qed.

End RuneByRune.

(** The ASCII encoder of ianaindex encodes rune by rune. *)
Lemma asciiEncoder_RuneEncoder :
  RuneEncoder (fun dst src _ => Returns (ianaindex.asciiEncode dst src)) ascii_repertoire.
Proof.
  split.
  - reflexivity.
  - intros d c p _ Hc. simpl.
    destruct (N.ltb_spec MaxASCII c) as [Hlt|_]; [unfold MaxASCII in Hlt; lia|].
    reflexivity.
  - discriminate.
  - intros d c p _ r size Hc _ _ _. exists ASCIISub. simpl.
    destruct (N.ltb_spec MaxASCII c) as [_|Hge]; [reflexivity|unfold MaxASCII in Hge; lia].
  - intros d c p _ r Hc _. exists (RepertoireError ASCIISub). simpl.
    destruct (N.ltb_spec MaxASCII c) as [_|Hge]; [|unfold MaxASCII in Hge; lia].
    split; [reflexivity|right; reflexivity].
Qed.

(** The bound on the iterations of [charmapEncode] is never reached. *)
Lemma charmapEncode_fuel m fuel : forall fuel' dst src atEOF,
  (length src <= fuel)%nat -> (length src <= fuel')%nat ->
  charmap.charmapEncode m fuel dst src atEOF = charmap.charmapEncode m fuel' dst src atEOF.
Proof.
  induction fuel as [|fuel IH]; intros fuel' dst src atEOF H1 H2.
  - destruct src; [destruct fuel'; reflexivity|simpl in H1; lia].
  - destruct src as [|c src']; [destruct fuel'; reflexivity|].
    destruct fuel' as [|fuel']; [simpl in H2; lia|].
    simpl in H1, H2. cbn [charmap.charmapEncode].
    destruct dst as [|dst]; [reflexivity|].
    rewrite (IH fuel' dst src') by lia.
    pose proof (DecodeRune_size_pos c src') as Hpos.
    destruct (utf8.DecodeRune (c :: src')) as [r size]. simpl in Hpos.
    assert (forall size0, (1 <= size0)%nat ->
      charmap.charmapEncode m fuel dst (drop size0 (c :: src')) atEOF =
      charmap.charmapEncode m fuel' dst (drop size0 (c :: src')) atEOF) as Hrec
      by (intros size0 Hs; apply IH; rewrite length_drop; simpl; lia).
    rewrite (Hrec 1%nat) by lia. rewrite (Hrec size) by lia. reflexivity.
Qed.

(** The encoder of a charmap that extends ASCII encodes rune by rune. *)
Lemma charmapEncoder_RuneEncoder m :
  charmap.asciiSuperset m = true ->
  RuneEncoder (fun dst src atEOF => charmap.charmapEncode m (length src) dst src atEOF)
              (charmap_repertoire m).
Proof.
  intros Hsuper. unfold charmap_repertoire. split.
  - reflexivity.
  - intros d c p atEOF Hc. cbn [length charmap.charmapEncode].
    destruct (N.ltb_spec c utf8.RuneSelf) as [_|Hge]; [|unfold utf8.RuneSelf in Hge; lia].
    rewrite Hsuper. reflexivity.
  - intros d c p atEOF r size w Hc Hdec Hsize Hw.
    destruct (charmap.encode m r) as [b|] eqn:Hb; [|discriminate].
    injection Hw as <-. cbn [length charmap.charmapEncode Nat.add].
    destruct (N.ltb_spec c utf8.RuneSelf) as [Hlt|_]; [unfold utf8.RuneSelf in Hlt; lia|].
    rewrite Hdec. destruct (Nat.eqb_spec size 1) as [|_]; [contradiction|].
    rewrite Hb. f_equal.
    pose proof (DecodeRune_size_pos c p) as Hpos. rewrite Hdec in Hpos. simpl in Hpos.
    apply charmapEncode_fuel; rewrite ?length_drop; simpl; lia.
  - intros d c p atEOF r size Hc Hdec Hsize Hw.
    destruct (charmap.encode m r) as [b|] eqn:Hb; [discriminate|].
    exists (charmap.replacement m). cbn [length charmap.charmapEncode].
    destruct (N.ltb_spec c utf8.RuneSelf) as [Hlt|_]; [unfold utf8.RuneSelf in Hlt; lia|].
    rewrite Hdec. destruct (Nat.eqb_spec size 1) as [|_]; [contradiction|].
    rewrite Hb. reflexivity.
  - intros d c p atEOF r Hc Hdec. cbn [length charmap.charmapEncode].
    destruct (N.ltb_spec c utf8.RuneSelf) as [Hlt|_]; [unfold utf8.RuneSelf in Hlt; lia|].
    rewrite Hdec. simpl Nat.eqb. cbv iota.
    destruct (negb atEOF && negb (utf8.FullRune (c :: p))).
    + exists ErrShortSrc. split; [reflexivity|left; reflexivity].
    + exists (RepertoireError (charmap.replacement m)).
      split; [reflexivity|right; reflexivity].
Qed.

(** * The claims *)

(** ** The transcoder *)

(** C8: a code point that the target charset can represent is emitted as
    the native bytes of the charset, not as an escape.  For every encoder
    that works rune by rune over a charset extending ASCII, and every
    source, [Transform] returns what [transcode] describes: each ASCII byte
    as it is, each code point of the repertoire as its native bytes, and an
    escape only for a code point outside the repertoire (the destination
    having room to spare). *)
Theorem representable_code_points_native f repr dst src atEOF o k err :
  RuneEncoder f repr ->
  transcode repr (length src) src = (o, k, err) ->
  (length o < dst)%nat ->
  Transform (stateless f) tt dst src atEOF = Returns (tt, (o, k, err)).
Proof.
  intros Hre Ht Hroom. unfold Transform.
  apply (Transform_loop_transcode f repr Hre atEOF dst src (length src)
           (S (length src)) [] 0%nat o k err); simpl; try lia.
  rewrite Nat.sub_0_r, drop_0. exact Ht.
Qed.

(** U+00A3 into ISO-8859-1 is the byte 0xA3, and the U+263A next to it is
    escaped. *)
Lemma representable_code_points_native_witness :
  Transform (NewEncoder (charmap.encoding charmap.ISO8859_1)) tt 32
    (Tests.testValue (Tests.pound ++ Tests.smiley)) true =
  Returns (tt, (Tests.testValue ([0xA3]%N ++ Tests.escape_text "263a"), 13%nat, None)).
Proof.
  apply (representable_code_points_native _ (charmap_repertoire charmap.ISO8859_1)).
  - apply charmapEncoder_RuneEncoder. reflexivity.
  - reflexivity.
  - simpl. lia.
Defined.

(** C1: the escape of U+FFFD is never written.  Into us-ascii, a JSON
    text whose string holds U+FFFD has a code point that the charset cannot
    represent; it is a complete rune of three bytes and its escape is the
    backslash, u, f, f, f, d.  [Transform], called at the end of the input,
    writes the six bytes before the code point and returns [ErrShortSrc]
    with the code point unconsumed. *)
Theorem transcoder_loses_replacement_char :
  utf8.DecodeRune Tests.replacement_char = (utf8.RuneError, 3%nat) /\
  json_escape utf8.RuneError = Tests.escape_text "fffd" /\
  Transform (NewEncoder ianaindex.asciiEnc) tt 11
    (Tests.testValue Tests.replacement_char) true =
  Returns (tt, (firstn 6 (Tests.testValue Tests.replacement_char), 6%nat,
                Some ErrShortSrc)).
Proof. repeat split. Qed.

(** The ASCII encoder reports no replacement error on ASCII text. *)
Lemma asciiEncoder_ascii_representable :
  ascii_representable (NewEncoder ianaindex.asciiEnc).
Proof.
  intros [] d buf atEOF [] wr n err Hascii. simpl.
  revert d wr n err. induction Hascii as [|c buf Hc _ IH]; intros d wr n err.
  - simpl. intros [= <- <- <-]. reflexivity.
  - simpl. destruct (N.ltb_spec MaxASCII c) as [Hlt|_]; [unfold MaxASCII in Hlt; lia|].
    destruct d as [|d]; [intros [= <- <- <-]; reflexivity|].
    destruct (ianaindex.asciiEncode d buf) as [[wr' n'] err'] eqn:Hrec.
    simpl. intros [= <- <- <-]. apply (IH d wr' n'). rewrite Hrec. reflexivity.
Qed.

(** Where an outcome of [Transform] comes from, at whatever iteration of
    the loop it is returned.  It is the outcome of a call of the encoder on
    the rest of the source that reported no replacement error, returned as
    it is; or it is [ErrShortSrc], after a replacement error at a position
    where [utf8.DecodeRune] gives [utf8.RuneError]; or it is the error that
    the encoder returned for the escape of the rune at the position. *)
Lemma Transform_outcome_origin (e : Transformer) fuel :
  forall s dst src atEOF (out : bytes) nSrc s' (out' : bytes) n err,
    Transform_loop e fuel s dst src atEOF out nSrc = Returns (s', (out', n, err)) ->
    (exists s0 d k (wr : bytes) ns,
       tTransform e s0 d (drop k src) atEOF = Returns (s', (wr, ns, err)) /\
       is_replacementError err = false /\ n = (k + ns)%nat) \/
    (exists s0 d k (wr : bytes) ns err0,
       tTransform e s0 d (drop k src) atEOF = Returns (s', (wr, ns, err0)) /\
       is_replacementError err0 = true /\ n = (k + ns)%nat /\
       (utf8.DecodeRune (drop n src)).1 = utf8.RuneError /\
       err = Some ErrShortSrc) \/
    (exists s1 d r size buf (wr : bytes) k x,
       utf8.DecodeRune (drop n src) = (r, size) /\ r <> utf8.RuneError /\
       escape_buf r = Returns buf /\
       tTransform e s1 d buf false = Returns (s', (wr, k, Some x)) /\
       err = Some x).
Proof.
  induction fuel as [|fuel IH];
    intros s dst src atEOF out nSrc s' out' n err; [discriminate|].
  cbn [Transform_loop].
  destruct (dst_from dst (length out)) as [d| |]; simpl; try discriminate.
  destruct (slice_from src nSrc) as [p| |] eqn:Hp; simpl; try discriminate.
  assert (p = drop nSrc src) as ->
    by (unfold slice_from in Hp; destruct (_ <=? _)%nat; congruence).
  destruct (tTransform e s d (drop nSrc src) atEOF) as [[s1 [[wr ns] err1]]| |] eqn:Hcall;
    simpl; try discriminate.
  destruct (is_replacementError err1) eqn:Herr1; simpl.
  2:{ intros [= <- <- <- <-]. left. exists s, d, nSrc, wr, ns. auto. }
  destruct (slice_from src (nSrc + ns)) as [p2| |] eqn:Hp2; simpl; try discriminate.
  assert (p2 = drop (nSrc + ns) src) as ->
    by (unfold slice_from in Hp2; destruct (_ <=? _)%nat; congruence).
  destruct (utf8.DecodeRune (drop (nSrc + ns) src)) as [r size] eqn:Hdec.
  destruct (Z.eqb_spec r utf8.RuneError) as [->|Hr].
  { intros [= <- <- <- <-]. right. left. exists s, d, nSrc, wr, ns, err1.
    rewrite Hdec. auto. }
  destruct (escape_buf r) as [buf| |] eqn:Hbuf; simpl; try discriminate.
  destruct (dst_from dst (length (out ++ wr))) as [d2| |]; simpl; try discriminate.
  destruct (tTransform e s1 d2 buf false) as [[s2 [[wr2 k] err2]]| |] eqn:Hesc;
    simpl; try discriminate.
  destruct err2 as [x|]; [|apply IH].
  intros [= <- <- <- <-]. right. right. exists s1, d2, r, size, buf, wr2, k, x. auto.
Qed.

(** C6: a character that the charset cannot represent does end in a fatal
    error when it is U+FFFD.  Into iso-8859-1, at the end of the input, the
    encoder reports the character at position 8 as not representable; a
    complete rune of three bytes is decoded there, no byte is missing; yet
    [Transform] signals a short source, which the driver can only return,
    and [marshal] fails.  With U+263A in the place of U+FFFD the escape is
    written and there is no error. *)
Theorem replacement_char_short_source_at_EOF :
  tTransform (NewEncoder (charmap.encoding charmap.ISO8859_1)) tt 13
    (Tests.testValue (Tests.pound ++ Tests.replacement_char)) true =
    Returns (tt, (bytes_of_string "{" ++ [34] ++ bytes_of_string "s" ++ [34]
                    ++ bytes_of_string ":" ++ [34; 0xA3],
                  8%nat, Some (RepertoireError ASCIISub)))%N /\
  utf8.FullRune (drop 8 (Tests.testValue (Tests.pound ++ Tests.replacement_char))) = true /\
  utf8.DecodeRune (drop 8 (Tests.testValue (Tests.pound ++ Tests.replacement_char))) =
    (0xFFFD, 3%nat) /\
  Transform (NewEncoder (charmap.encoding charmap.ISO8859_1)) tt 13
    (Tests.testValue (Tests.pound ++ Tests.replacement_char)) true =
    Returns (tt, (bytes_of_string "{" ++ [34] ++ bytes_of_string "s" ++ [34]
                    ++ bytes_of_string ":" ++ [34; 0xA3],
                  8%nat, Some ErrShortSrc))%N /\
  transform.Bytes (jsonTransformer (NewEncoder (charmap.encoding charmap.ISO8859_1)))
    (Tests.testValue (Tests.pound ++ Tests.replacement_char)) =
    Returns (bytes_of_string "{" ++ [34] ++ bytes_of_string "s" ++ [34]
               ++ bytes_of_string ":" ++ [34; 0xA3],
             8%nat, Some ErrShortSrc)%N /\
  marshal Tests.libs "iso-8859-1" (Tests.testValue (Tests.pound ++ Tests.replacement_char)) =
    Returns (Err ErrShortSrc) /\
  marshal Tests.libs "iso-8859-1" (Tests.testValue (Tests.pound ++ Tests.smiley)) =
    Returns (Ok (Tests.testValue ([0xA3%N] ++ Tests.escape_text "263a"))).
Proof. repeat split. Qed.

(** Into us-ascii, U+263A is escaped with four lowercase digits and
    U+1F602 with its surrogate pair, high surrogate first. *)
Example escape_smiley :
  marshal Tests.libs "us-ascii" (Tests.testValue Tests.smiley) =
  Returns (Ok (Tests.testValue (Tests.escape_text "263a"))).
Proof. reflexivity. Qed.

Example escape_joy :
  marshal Tests.libs "" (Tests.testValue Tests.joy) =
  Returns (Ok (Tests.testValue (Tests.escape_text "d83d" ++ Tests.escape_text "de02"))).
Proof. reflexivity. Qed.

Example unmarshal_iso_8859_1 :
  unmarshal Tests.libs (Tests.testValue (Tests.escape_text "263a" ++ [0xA3]%N)) "iso-8859-1" =
  Returns (Ok (Tests.testValue (Tests.escape_text "263a" ++ Tests.pound))).
Proof. reflexivity. Qed.

(** ** marshal and unmarshal *)

Section Codec.

Context (L : Libs).

Local Open Scope string_scope.

Lemma EqualFold_nonempty charset t c :
  strings.EqualFold charset (String c t) = true -> String.eqb charset "" = false.
Proof. destruct charset; [discriminate|reflexivity]. Qed.

(** C3: for a charset name that is utf-8 up to case, [marshal] returns the
    outcome of [json.Marshal] itself, bytes or error; neither the registry
    nor a transform takes part. *)
Theorem marshal_utf8_identity charset (v : Value L) :
  strings.EqualFold charset "utf-8" = true ->
  marshal L charset v = Returns (json_Marshal L v).
Proof.
  intros Hfold. unfold marshal.
  rewrite (EqualFold_nonempty _ _ _ Hfold), Hfold.
  destruct (json_Marshal L v); reflexivity.
Qed.

(** C4: the two failures of the resolution of a charset are told apart.
    For a name that is neither empty nor utf-8, a name that the registry
    rejects gives the registry's own error, in [marshal] (once the value is
    serialized) and in [unmarshal]; a name that the registry knows without
    an implementation gives the unsupported-encoding error of the
    function; and the one error is never the other. *)
Theorem charset_error_kinds charset (v : Value L) buf body :
  String.eqb charset "" = false ->
  strings.EqualFold charset "utf-8" = false ->
  json_Marshal L v = Ok buf ->
  (forall enc msg, MIME_Encoding L charset = (enc, Some msg) ->
     marshal L charset v = Returns (Err (ianaindexError msg)) /\
     unmarshal L body charset = Returns (Err (ianaindexError msg))) /\
  (MIME_Encoding L charset = (None, None) ->
     marshal L charset v = Returns (Err (errorsNew "marshal: unsupported encoding")) /\
     unmarshal L body charset = Returns (Err (errorsNew "unmarshal: unsupported encoding"))) /\
  (forall msg msg', ianaindexError msg <> errorsNew msg').
Proof.
  intros Hne Hfold Hjson. unfold marshal, unmarshal.
  rewrite Hne, Hfold, Hjson. simpl.
  split; [|split].
  - intros enc msg ->. split; reflexivity.
  - intros ->. split; reflexivity.
  - discriminate.
Qed.

(** An error of the charset decoder is returned by [unmarshal] as it is,
    and the JSON parser is not run. *)
Lemma unmarshal_decoder_error charset body enc err :
  String.eqb charset "" = false ->
  strings.EqualFold charset "utf-8" = false ->
  MIME_Encoding L charset = (Some enc, None) ->
  Coder_Bytes L (NewDecoder enc) body = Returns (Err err) ->
  unmarshal L body charset = Returns (Err err).
Proof.
  intros Hne Hfold Hreg Hdec. unfold unmarshal.
  rewrite Hne, Hfold, Hreg. simpl. rewrite Hdec. reflexivity.
Qed.

(** Without a charset, [marshal] encodes as us-ascii. *)
Lemma marshal_default_charset (v : Value L) :
  marshal L "" v = marshal L "us-ascii" v.
Proof. reflexivity. Qed.

End Codec.

(** The charset name of the default content type, in upper case. *)
Lemma marshal_utf8_identity_witness :
  marshal Tests.libs "UTF-8" (Tests.testValue Tests.smiley) =
  Returns (Ok (Tests.testValue Tests.smiley)).
Proof. apply (marshal_utf8_identity Tests.libs). reflexivity. Defined.

(** The names of the tests: one that the registry rejects and one that it
    knows without an implementation. *)
Lemma charset_error_kinds_witness :
  marshal Tests.libs "no-such" (Tests.testValue Tests.smiley) =
    Returns (Err (ianaindexError "ianaindex: invalid encoding name")) /\
  unmarshal Tests.libs (Tests.testValue Tests.smiley) "OSD_EBCDIC_DF03_IRV" =
    Returns (Err (errorsNew "unmarshal: unsupported encoding")).
Proof.
  split.
  - apply (charset_error_kinds Tests.libs "no-such" (Tests.testValue Tests.smiley)
             (Tests.testValue Tests.smiley) []
             eq_refl eq_refl eq_refl) with (enc := None).
    reflexivity.
  - apply (charset_error_kinds Tests.libs "OSD_EBCDIC_DF03_IRV" (Tests.testValue Tests.smiley)
             (Tests.testValue Tests.smiley) (Tests.testValue Tests.smiley)
             eq_refl eq_refl eq_refl).
    reflexivity.
Defined.

(** C2: the round trip fails for a value with U+FFFD.  The charset
    us-ascii is supported and the value is serialized by [json.Marshal],
    yet [marshal] returns [ErrShortSrc] and no bytes to unmarshal.  The
    same text with any other code point goes through. *)
Theorem marshal_replacement_char_no_round_trip :
  json_Marshal Tests.libs (Tests.testValue Tests.replacement_char) =
    Ok (Tests.testValue Tests.replacement_char) /\
  MIME_Encoding Tests.libs "us-ascii" = (Some ianaindex.asciiEnc, None) /\
  marshal Tests.libs "us-ascii" (Tests.testValue Tests.replacement_char) =
    Returns (Err ErrShortSrc).
Proof. repeat split. Qed.

(** ** Requests and responses *)

Section Messages.

Context (L : Libs).

Local Open Scope string_scope.

(** C9: with a [nil] value, [MarshalRequest] returns what [http.NewRequest]
    returns for a [nil] body and touches nothing: no body, no header, no
    content length, no [GetBody].  The content type is not parsed, whatever
    it is, and the only error is that of [http.NewRequest] on the method
    and the URL. *)
Theorem MarshalRequest_nil_value method url contentType :
  MarshalRequest L method url contentType None =
  Returns
    match NewRequest_check L method url with
    | Some err => Err err
    | None =>
      Ok {| http.Method := method; http.URL := url; http.Header_ := ∅;
            http.Body := None; http.ContentLength := 0; http.GetBody := None |}
    end.
Proof.
  unfold MarshalRequest, NewRequest. simpl.
  destruct (NewRequest_check L method url); reflexivity.
Qed.

(** The request built around the outcome of a call of [marshal]. *)
Lemma MarshalRequest_value method url contentType (x : Value L) :
  String.eqb contentType "" = false ->
  MarshalRequest L method url contentType (Some x) =
  r ← marshal L (param (ParseMediaType L contentType).1.2 "charset") x;
  Returns match r with
          | Ok body => request_with_body L method url contentType body
          | Err err => Err err
          end.
Proof.
  intros Hct. unfold MarshalRequest, request_with_body, NewRequest. rewrite Hct.
  destruct (ParseMediaType L contentType) as [[mt params] perr]. simpl.
  destruct (marshal L (param params "charset") x) as [[body|err]| |]; simpl;
    try reflexivity.
  destruct (NewRequest_check L method url); reflexivity.
Qed.

(** The response written around the outcome of a call of [marshal]. *)
Lemma WriteResponse_value {W} `{!http.ResponseWriter W} (w : W) code
    contentType (x : Value L) :
  String.eqb contentType "" = false ->
  WriteResponse L w code contentType (Some x) =
  r ← marshal L (param (ParseMediaType L contentType).1.2 "charset") x;
  Returns match r with
          | Ok body => response_with_body w code contentType body
          | Err err => (w, Some err)
          end.
Proof.
  intros Hct. unfold WriteResponse, response_with_body. rewrite Hct.
  destruct (ParseMediaType L contentType) as [[mt params] perr]. simpl.
  destruct (marshal L (param params "charset") x) as [[body|err]| |]; reflexivity.
Qed.

(** C7: the two layers of defaults.  An empty content type stands for the
    default content type, in [MarshalRequest] and in [WriteResponse]; its
    charset parameter being utf-8, the body is then the JSON text as
    [json.Marshal] gave it.  A content type that is given without a charset
    has the value encoded as us-ascii. *)
Theorem content_type_defaulting {W} `{!http.ResponseWriter W} (w : W) code
    method url contentType (v : option (Value L)) (x : Value L) :
  param (ParseMediaType L default_content_type).1.2 "charset" = "utf-8" ->
  String.eqb contentType "" = false ->
  param (ParseMediaType L contentType).1.2 "charset" = "" ->
  (MarshalRequest L method url "" v = MarshalRequest L method url default_content_type v /\
   WriteResponse L w code "" v = WriteResponse L w code default_content_type v) /\
  (MarshalRequest L method url "" (Some x) =
     Returns match json_Marshal L x with
             | Ok body => request_with_body L method url default_content_type body
             | Err err => Err err
             end /\
   WriteResponse L w code "" (Some x) =
     Returns match json_Marshal L x with
             | Ok body => response_with_body w code default_content_type body
             | Err err => (w, Some err)
             end) /\
  (MarshalRequest L method url contentType (Some x) =
     (r ← marshal L "us-ascii" x;
      Returns match r with
              | Ok body => request_with_body L method url contentType body
              | Err err => Err err
              end) /\
   WriteResponse L w code contentType (Some x) =
     (r ← marshal L "us-ascii" x;
      Returns match r with
              | Ok body => response_with_body w code contentType body
              | Err err => (w, Some err)
              end)).
Proof.
  intros Hdefault Hct Hparam. split; [split; reflexivity|]. split.
  - change (MarshalRequest L method url "" (Some x))
      with (MarshalRequest L method url default_content_type (Some x)).
    change (WriteResponse L w code "" (Some x))
      with (WriteResponse L w code default_content_type (Some x)).
    rewrite MarshalRequest_value, WriteResponse_value by reflexivity.
    rewrite Hdefault. unfold marshal. simpl.
    destruct (json_Marshal L x); split; reflexivity.
  - rewrite MarshalRequest_value, WriteResponse_value by exact Hct.
    rewrite Hparam. split; reflexivity.
Qed.

End Messages.

(** The content types of the tests: none, and [application/json]. *)
Lemma content_type_defaulting_witness :
  MarshalRequest Tests.libs "POST" "https://test.example.com" ""
    (Some (Tests.testValue Tests.smiley)) =
    Returns (request_with_body Tests.libs "POST" "https://test.example.com"
               default_content_type (Tests.testValue Tests.smiley)) /\
  WriteResponse Tests.libs http.NewRecorder 0 "application/json"
    (Some (Tests.testValue Tests.smiley)) =
    Returns (response_with_body http.NewRecorder 0 "application/json"
               (Tests.testValue (Tests.escape_text "263a"))).
Proof.
  destruct (content_type_defaulting Tests.libs http.NewRecorder 0
              "POST" "https://test.example.com" "application/json"
              None (Tests.testValue Tests.smiley) eq_refl eq_refl eq_refl)
    as (_ & (Hutf8 & _) & (_ & Hascii)).
  split; [exact Hutf8|exact Hascii].
Defined.

(** ** The message of a [ResponseError] *)

Section ErrorMessage.

Context (L : Libs).

Local Open Scope string_scope.

(** C10, as amended: [Error] returns the trimmed body exactly when the
    content type of the response parses, its media type starts with
    [text/], the text of the body is obtained without error and that text,
    before trimming, is not empty and shorter than 256 bytes; when one of
    these fails it returns the status line.  The text is the body itself
    when no charset or utf-8 is declared, the decoded body when the
    declared charset resolves to an encoding that decodes it, and (the
    amendment) the body itself, undecoded, when the registry knows the
    declared charset without an implementation. *)
Theorem ResponseError_Error_spec (e : ResponseError) mt params perr :
  ParseMediaType L (http.Get (http.RespHeader (Response e)) "Content-Type")
    = (mt, params, perr) ->
  (forall buf,
     perr = None -> strings.HasPrefix mt "text/" = true ->
     body_text L (param params "charset") (RBody e) = Returns (Ok buf) ->
     (0 < length buf < 256)%nat ->
     Error L e = Returns (TrimSpace L buf)) /\
  (perr <> None \/ strings.HasPrefix mt "text/" = false \/
   (exists err, body_text L (param params "charset") (RBody e) = Returns (Err err)) \/
   (exists buf, body_text L (param params "charset") (RBody e) = Returns (Ok buf) /\
                (length buf = 0 \/ 256 <= length buf)%nat) ->
   Error L e = Returns (bytes_of_string (http.Status (Response e)))).
Proof.
  intros Hparse. unfold Error, body_text. rewrite Hparse.
  destruct perr as [perr|]; simpl.
  { split; [discriminate|reflexivity]. }
  destruct (strings.HasPrefix mt "text/"); simpl.
  2:{ split; [discriminate|reflexivity]. }
  destruct (String.eqb (param params "charset") ""); simpl.
  { split.
    - intros buf _ _ [= <-] [Hlo Hhi].
      destruct (Nat.ltb_spec 0 (length (RBody e))); [|lia].
      destruct (Nat.ltb_spec (length (RBody e)) 256); [|lia]. reflexivity.
    - intros [Hc|[Hc|[[err Hc]|(buf & [= <-] & Hlen)]]]; try congruence.
      destruct (Nat.ltb_spec 0 (length (RBody e)));
        destruct (Nat.ltb_spec (length (RBody e)) 256); try reflexivity; lia. }
  destruct (strings.EqualFold (param params "charset") "utf-8"); simpl.
  { split.
    - intros buf _ _ [= <-] [Hlo Hhi].
      destruct (Nat.ltb_spec 0 (length (RBody e))); [|lia].
      destruct (Nat.ltb_spec (length (RBody e)) 256); [|lia]. reflexivity.
    - intros [Hc|[Hc|[[err Hc]|(buf & [= <-] & Hlen)]]]; try congruence.
      destruct (Nat.ltb_spec 0 (length (RBody e)));
        destruct (Nat.ltb_spec (length (RBody e)) 256); try reflexivity; lia. }
  destruct (MIME_Encoding L (param params "charset")) as [[enc|] [msg|]]; simpl.
  - split; [discriminate|reflexivity].
  - destruct (Coder_Bytes L (NewDecoder enc) (RBody e)) as [[buf'|err']| |]; simpl.
    + split.
      * intros buf _ _ [= <-] [Hlo Hhi].
        destruct (Nat.ltb_spec 0 (length buf')); [|lia].
        destruct (Nat.ltb_spec (length buf') 256); [|lia]. reflexivity.
      * intros [Hc|[Hc|[[err Hc]|(buf & [= <-] & Hlen)]]]; try congruence.
        destruct (Nat.ltb_spec 0 (length buf'));
          destruct (Nat.ltb_spec (length buf') 256); try reflexivity; lia.
    + split; [discriminate|reflexivity].
    + split; [discriminate|].
      intros [Hc|[Hc|[[err Hc]|(buf & Hc & _)]]]; congruence.
    + split; [discriminate|].
      intros [Hc|[Hc|[[err Hc]|(buf & Hc & _)]]]; congruence.
  - split; [discriminate|reflexivity].
  - split.
    + intros buf _ _ [= <-] [Hlo Hhi].
      destruct (Nat.ltb_spec 0 (length (RBody e))); [|lia].
      destruct (Nat.ltb_spec (length (RBody e)) 256); [|lia]. reflexivity.
    + intros [Hc|[Hc|[[err Hc]|(buf & [= <-] & Hlen)]]]; try congruence.
      destruct (Nat.ltb_spec 0 (length (RBody e)));
        destruct (Nat.ltb_spec (length (RBody e)) 256); try reflexivity; lia.
Qed.

End ErrorMessage.

(** The pound sign and a line feed in ISO-8859-1 give the pound sign; a
    response without content type gives its status line; a body in a
    charset known without an implementation is the message, undecoded. *)
Lemma ResponseError_Error_spec_witness :
  Error Tests.libs Tests.charsetError = Returns Tests.pound /\
  Error Tests.libs Tests.noMessageError =
    Returns (bytes_of_string "500 Internal Server Error") /\
  Error Tests.libs unsupportedCharsetError = Returns (bytes_of_string "oops").
Proof.
  split; [|split].
  3:{ destruct (ResponseError_Error_spec Tests.libs unsupportedCharsetError _ _ _ eq_refl)
        as [Hbody _].
      apply (Hbody (bytes_of_string "oops" ++ [10%N]));
        [reflexivity|reflexivity|reflexivity|simpl; lia]. }
  - destruct (ResponseError_Error_spec Tests.libs Tests.charsetError _ _ _ eq_refl)
      as [Hbody _].
    apply (Hbody (Tests.pound ++ [10%N])); [reflexivity|reflexivity|reflexivity|].
    simpl. lia.
  - destruct (ResponseError_Error_spec Tests.libs Tests.noMessageError _ _ _ eq_refl)
      as [_ Hstatus].
    apply Hstatus. left. discriminate.
Defined.

(** Apart from a declared charset that the registry knows without an
    implementation, [Error] is what the specification's words describe. *)
Lemma Error_as_claimed (L : Libs) (e : ResponseError) mt params perr :
  ParseMediaType L (http.Get (http.RespHeader (Response e)) "Content-Type")
    = (mt, params, perr) ->
  String.eqb (param params "charset") "" || strings.EqualFold (param params "charset") "utf-8"
    = true \/
  MIME_Encoding L (param params "charset") <> (None, None) ->
  Error L e = claimed_Error L e.
Proof.
  intros Hparse Hcs. unfold Error, claimed_Error, claimed_body_text. rewrite Hparse.
  destruct (is_nil perr && strings.HasPrefix mt "text/"); [|reflexivity].
  destruct (String.eqb (param params "charset") ""); simpl; [reflexivity|].
  destruct (strings.EqualFold (param params "charset") "utf-8"); simpl; [reflexivity|].
  destruct Hcs as [Hcs|Hcs]; [discriminate|].
  destruct (MIME_Encoding L (param params "charset")) as [[enc|] [msg|]]; simpl;
    try reflexivity; [|congruence].
  destruct (Coder_Bytes L (NewDecoder enc) (RBody e)) as [[buf|err]| |]; reflexivity.
Qed.

(** The description of the specification fails on a charset that the
    registry knows without an implementation: the charset does not resolve
    to an encoding and nothing is decoded, so the words give the status
    line; [Error] returns the body, undecoded and trimmed. *)
Lemma ResponseError_Error_undecoded_body :
  MIME_Encoding Tests.libs "OSD_EBCDIC_DF03_IRV" = (None, None) /\
  Error Tests.libs unsupportedCharsetError = Returns (bytes_of_string "oops") /\
  claimed_Error Tests.libs unsupportedCharsetError =
    Returns (bytes_of_string "500 Internal Server Error") /\
  Error Tests.libs unsupportedCharsetError <> claimed_Error Tests.libs unsupportedCharsetError.
Proof. repeat split. discriminate. Qed.

(** * Further properties of the code *)

(** ** Escapes read back *)

Lemma unhex_hex_char d : 0 <= d < 16 -> unhex (hex_char d) = Some d.
Proof.
  intros Hd.
  assert (d = 0 \/ d = 1 \/ d = 2 \/ d = 3 \/ d = 4 \/ d = 5 \/ d = 6 \/ d = 7 \/
          d = 8 \/ d = 9 \/ d = 10 \/ d = 11 \/ d = 12 \/ d = 13 \/ d = 14 \/ d = 15)
    as Hcases by lia.
  repeat (destruct Hcases as [->|Hcases]; [reflexivity|]). subst d. reflexivity.
Qed.

Lemma parse_u_escape_u_escape x :
  0 <= x < 0x10000 -> parse_u_escape (u_escape x) = Some x.
Proof.
  intros Hx. unfold u_escape, four_hex. cbn [app parse_u_escape].
  rewrite !unhex_hex_char; try (apply Z.mod_pos_bound; lia).
  simpl. f_equal. Z.div_mod_to_equations. lia.
Qed.

Lemma hexDigit_out_of_range i : i < 0 \/ 16 <= i -> hexDigit i = None.
Proof.
  intros Hi. unfold hexDigit.
  destruct (Z.leb_spec 0 i); destruct (Z.ltb_spec i 16); simpl; try reflexivity; lia.
Qed.

Lemma hex_char_lower d : 0 <= d < 16 -> lower_hex_digit (hex_char d) = true.
Proof.
  intros Hd.
  assert (d = 0 \/ d = 1 \/ d = 2 \/ d = 3 \/ d = 4 \/ d = 5 \/ d = 6 \/ d = 7 \/
          d = 8 \/ d = 9 \/ d = 10 \/ d = 11 \/ d = 12 \/ d = 13 \/ d = 14 \/ d = 15)
    as Hcases by lia.
  repeat (destruct Hcases as [->|Hcases]; [reflexivity|]). subst d. reflexivity.
Qed.

(** X1: [escape] writes six bytes: a backslash, [u] and four lower-case
    hexadecimal digits, which a JSON parser reads back as the 16-bit value
    escaped; outside the 16-bit range the index into [hexDigits] is out of
    range. *)
Theorem escape_parses_back r :
  (0 <= r < 0x10000 ->
   exists h3 h2 h1 h0,
     escape r = Some [92; 117; h3; h2; h1; h0]%N /\
     Forall (fun h => lower_hex_digit h = true) [h3; h2; h1; h0] /\
     parse_u_escape [92; 117; h3; h2; h1; h0]%N = Some r) /\
  (r < 0 \/ 0x10000 <= r -> escape r = None).
Proof.
  split.
  - intros Hr.
    exists (hex_char (r / 4096 mod 16)), (hex_char (r / 256 mod 16)),
           (hex_char (r / 16 mod 16)), (hex_char (r mod 16)).
    split; [apply (escape_u_escape r Hr)|].
    split; [|apply (parse_u_escape_u_escape r Hr)].
    repeat apply Forall_cons_2; try apply Forall_nil_2;
      apply hex_char_lower, Z.mod_pos_bound; lia.
  - intros Hr. unfold escape.
    rewrite (Z.shiftr_div_pow2 r 12) by lia. change (2 ^ 12) with 4096.
    rewrite (hexDigit_out_of_range (r / 4096)); [reflexivity|].
    Z.div_mod_to_equations. lia.
Qed.

Lemma lor_shiftl_add a b n :
  0 <= n -> 0 <= b < 2 ^ n -> Z.lor (Z.shiftl a n) b = a * 2 ^ n + b.
Proof.
  intros Hn Hb. rewrite <- Z.shiftl_mul_pow2 by lia.
  rewrite <- Z.lxor_lor, <- Z.add_nocarry_lxor; try reflexivity.
  all: apply Z.bits_inj'; intros i Hi; rewrite Z.land_spec, Z.bits_0;
    destruct (Z.lt_ge_cases i n) as [Hlt|Hge];
    [rewrite Z.shiftl_spec_low by lia; reflexivity|].
  all: rewrite andb_comm; replace (Z.testbit b i) with false; [reflexivity|].
  all: symmetry; destruct (Z.eq_dec b 0) as [->|Hnz]; [apply Z.bits_0|].
  all: apply Z.bits_above_log2; [lia|].
  all: apply Z.lt_le_trans with n; [apply Z.log2_lt_pow2; lia|lia].
Qed.

(** X2: above 0xFFFF the buffer holds two escapes that read back as a
    high and a low surrogate, and the pair decodes to the code point
    escaped. *)
Theorem surrogate_pair_round_trip r :
  0x10000 <= r <= utf8.MaxRune ->
  exists b1 b2 hi lo,
    escape_buf r = Returns (b1 ++ b2) /\
    parse_u_escape b1 = Some hi /\ parse_u_escape b2 = Some lo /\
    0xD800 <= hi < 0xDC00 /\ 0xDC00 <= lo < 0xE000 /\
    utf16_DecodeRune hi lo = r.
Proof.
  intros Hr. unfold utf8.MaxRune in Hr.
  assert (0 <= (r - 0x10000) / 1024 < 1024) as Hhi
    by (split; [apply Z.div_pos|apply Z.div_lt_upper_bound]; lia).
  pose proof (Z.mod_pos_bound (r - 0x10000) 1024 ltac:(lia)) as Hlo.
  exists (u_escape (0xD800 + (r - 0x10000) / 1024)),
         (u_escape (0xDC00 + (r - 0x10000) mod 1024)),
         (0xD800 + (r - 0x10000) / 1024), (0xDC00 + (r - 0x10000) mod 1024).
  split.
  { rewrite escape_buf_json_escape by (unfold utf8.MaxRune; lia).
    unfold json_escape. destruct (Z.ltb_spec r 0x10000); [lia|reflexivity]. }
  split; [apply parse_u_escape_u_escape; lia|].
  split; [apply parse_u_escape_u_escape; lia|].
  split; [lia|]. split; [lia|].
  unfold utf16_DecodeRune, utf16.surr1, utf16.surr2, utf16.surrSelf.
  destruct (Z.leb_spec 0xd800 (0xD800 + (r - 0x10000) / 1024)); [|lia].
  destruct (Z.ltb_spec (0xD800 + (r - 0x10000) / 1024) 0xdc00); [|lia].
  destruct (Z.leb_spec 0xdc00 (0xDC00 + (r - 0x10000) mod 1024)); [|lia].
  destruct (Z.ltb_spec (0xDC00 + (r - 0x10000) mod 1024) 0xe000); [|lia].
  simpl andb. cbv iota.
  rewrite lor_shiftl_add by lia. change (2 ^ 10) with 1024.
  Z.div_mod_to_equations. lia.
Qed.

Lemma surrogate_pair_round_trip_witness :
  exists b1 b2 hi lo,
    escape_buf 0x1F602 = Returns (b1 ++ b2) /\
    parse_u_escape b1 = Some hi /\ parse_u_escape b2 = Some lo /\
    0xD800 <= hi < 0xDC00 /\ 0xDC00 <= lo < 0xE000 /\
    utf16_DecodeRune hi lo = 0x1F602.
Proof. apply surrogate_pair_round_trip. unfold utf8.MaxRune. lia. Defined.

(** ** [Transform] as a Transformer *)

Section Contract.

Variable e : Transformer.

Lemma Transform_loop_bounds :
  well_behaved e ->
  forall fuel s dst src atEOF out nSrc,
    (length out <= dst)%nat -> (nSrc <= length src)%nat ->
    (length src - nSrc < fuel)%nat ->
    exists s' out' n err,
      Transform_loop e fuel s dst src atEOF out nSrc = Returns (s', (out', n, err)) /\
      (length out' <= dst)%nat /\ (n <= length src)%nat.
Proof.
  intros Hwb. induction fuel as [|fuel IH];
    intros s dst src atEOF out nSrc Hout Hn Hfuel; [lia|].
  cbn [Transform_loop].
  rewrite dst_from_ok, slice_from_ok by lia. simpl.
  destruct (Hwb s (dst - length out)%nat (drop nSrc src) atEOF)
    as (s1 & wr & ns & err & Hcall & Hwr & Hns).
  rewrite length_drop in Hns. rewrite Hcall. simpl.
  assert (length (out ++ wr) <= dst)%nat as Hout1 by (rewrite length_app; lia).
  destruct (is_replacementError err); simpl.
  2:{ exists s1, (out ++ wr), (nSrc + ns)%nat, err. split; [reflexivity|]. split; lia. }
  rewrite slice_from_ok by lia. simpl.
  pose proof (DecodeRune_nonneg (drop (nSrc + ns) src)) as Hlo.
  pose proof (DecodeRune_le_MaxRune (drop (nSrc + ns) src)) as Hhi.
  pose proof (DecodeRune_size_le (drop (nSrc + ns) src)) as Hle.
  destruct (utf8.DecodeRune (drop (nSrc + ns) src)) as [r size] eqn:Hdec.
  simpl in Hlo, Hhi, Hle. rewrite length_drop in Hle.
  destruct (Z.eqb_spec r utf8.RuneError) as [Hr|Hr].
  { exists s1, (out ++ wr), (nSrc + ns)%nat, (Some ErrShortSrc).
    split; [reflexivity|]. split; lia. }
  destruct (DecodeRune_not_error_cons _ _ _ Hdec Hr) as (c & p' & Hp & Hsize).
  rewrite escape_buf_json_escape by lia. simpl.
  rewrite dst_from_ok by lia. simpl.
  destruct (Hwb s1 (dst - length (out ++ wr))%nat (json_escape r) false)
    as (s2 & wr2 & n2 & err2 & Hcall2 & Hwr2 & _).
  rewrite Hcall2. simpl.
  destruct err2 as [err2|].
  { exists s2, (out ++ wr), (nSrc + ns)%nat, (Some err2).
    split; [reflexivity|]. split; lia. }
  apply IH; [rewrite length_app; lia|lia|lia].
Qed.

(** X3: over an encoder that keeps to the contract of [Transform], the
    transcoder keeps to it too: it returns (no slice bound is exceeded, no
    digit index is out of range, the loop ends) with no more bytes written
    than [dst] holds and no more consumed than [src] holds. *)
Theorem Transform_keeps_contract s dst src atEOF :
  well_behaved e ->
  exists s' out n err,
    Transform e s dst src atEOF = Returns (s', (out, n, err)) /\
    (length out <= dst)%nat /\ (n <= length src)%nat.
Proof.
  intros Hwb. unfold Transform.
  apply Transform_loop_bounds; [exact Hwb|simpl; lia|lia|lia].
Qed.

Lemma Transform_loop_nil_error :
  consumes_all e ->
  forall fuel s dst src atEOF out nSrc s' out' n,
    Transform_loop e fuel s dst src atEOF out nSrc = Returns (s', (out', n, None)) ->
    n = length src.
Proof.
  intros Hall. induction fuel as [|fuel IH];
    intros s dst src atEOF out nSrc s' out' n; [discriminate|].
  cbn [Transform_loop].
  destruct (dst_from dst (length out)) as [d| |]; simpl; try discriminate.
  destruct (slice_from src nSrc) as [p| |] eqn:Hp; simpl; try discriminate.
  unfold slice_from in Hp.
  destruct (Nat.leb_spec nSrc (length src)) as [Hn|]; [|discriminate].
  injection Hp as <-.
  destruct (tTransform e s d (drop nSrc src) atEOF) as [[s1 [[wr ns] err]]| |] eqn:Hcall;
    simpl; try discriminate.
  destruct (is_replacementError err) eqn:Herr; simpl.
  2:{ intros [= <- <- <- ->].
      apply Hall in Hcall. rewrite length_drop in Hcall. lia. }
  destruct (slice_from src (nSrc + ns)) as [p'| |]; simpl; try discriminate.
  destruct (utf8.DecodeRune p') as [r size].
  destruct (r =? utf8.RuneError); [discriminate|].
  destruct (escape_buf r) as [buf| |]; simpl; try discriminate.
  destruct (dst_from dst (length (out ++ wr))) as [d'| |]; simpl; try discriminate.
  destruct (tTransform e s1 d' buf false) as [[s2 [[wr2 n2] err2]]| |];
    simpl; try discriminate.
  destruct err2; [discriminate|]. apply IH.
Qed.

(** X4: when the encoder reports no error only after consuming all of its
    source, so does the transcoder: a [nil] error means that all of [src]
    was transcoded. *)
Theorem Transform_nil_error_consumes_all s dst src atEOF s' out n :
  consumes_all e ->
  Transform e s dst src atEOF = Returns (s', (out, n, None)) ->
  n = length src.
Proof. intros Hall. unfold Transform. apply Transform_loop_nil_error. exact Hall. Qed.

Lemma Transform_loop_Forall (P : byte -> Prop) :
  (forall s d p atEOF s' wr ns err,
     tTransform e s d p atEOF = Returns (s', (wr, ns, err)) -> Forall P wr) ->
  forall fuel s dst src atEOF (out : bytes) nSrc s' (out' : bytes) n err,
    Forall P out ->
    Transform_loop e fuel s dst src atEOF out nSrc = Returns (s', (out', n, err)) ->
    Forall P out'.
Proof.
  intros Henc. induction fuel as [|fuel IH];
    intros s dst src atEOF out nSrc s' out' n err Hout; [discriminate|].
  cbn [Transform_loop].
  destruct (dst_from dst (length out)) as [d| |]; simpl; try discriminate.
  destruct (slice_from src nSrc) as [p| |]; simpl; try discriminate.
  destruct (tTransform e s d p atEOF) as [[s1 [[wr ns] err1]]| |] eqn:Hcall;
    simpl; try discriminate.
  assert (Forall P (out ++ wr)) as Hout1
    by (apply Forall_app; split; [exact Hout|exact (Henc _ _ _ _ _ _ _ _ Hcall)]).
  destruct (is_replacementError err1); simpl.
  2:{ intros [= <- <- <- <-]. exact Hout1. }
  destruct (slice_from src (nSrc + ns)) as [p'| |]; simpl; try discriminate.
  destruct (utf8.DecodeRune p') as [r size].
  destruct (r =? utf8.RuneError); [intros [= <- <- <- <-]; exact Hout1|].
  destruct (escape_buf r) as [buf| |]; simpl; try discriminate.
  destruct (dst_from dst (length (out ++ wr))) as [d'| |]; simpl; try discriminate.
  destruct (tTransform e s1 d' buf false) as [[s2 [[wr2 n2] err2]]| |] eqn:Hcall2;
    simpl; try discriminate.
  destruct err2; [intros [= <- <- <- <-]; exact Hout1|].
  apply IH. apply Forall_app. split; [exact Hout1|exact (Henc _ _ _ _ _ _ _ _ Hcall2)].
Qed.

(** X5: the transcoder writes nothing of its own: every byte of its output
    was written by the charset encoder, so a property of all that the
    encoder writes (to be 7-bit, say) holds of all that the transcoder
    writes, escapes included. *)
Theorem Transform_writes_encoder_bytes (P : byte -> Prop) s dst src atEOF s' out n err :
  (forall s d p atEOF s' wr ns err,
     tTransform e s d p atEOF = Returns (s', (wr, ns, err)) -> Forall P wr) ->
  Transform e s dst src atEOF = Returns (s', (out, n, err)) ->
  Forall P out.
Proof.
  intros Henc. unfold Transform.
  apply (Transform_loop_Forall P Henc). apply Forall_nil. exact I.
Qed.

End Contract.

(** The ASCII encoder keeps to the contract and writes ASCII bytes only. *)
Lemma asciiEncode_bounds dst src :
  (length (ianaindex.asciiEncode dst src).1.1 <= dst)%nat /\
  ((ianaindex.asciiEncode dst src).1.2 <= length src)%nat /\
  Forall (fun c => (c < 0x80)%N) (ianaindex.asciiEncode dst src).1.1 /\
  ((ianaindex.asciiEncode dst src).2 = None -> (ianaindex.asciiEncode dst src).1.2 = length src).
Proof.
  revert dst. induction src as [|c src IH]; intros dst; simpl.
  - repeat split; try lia. apply Forall_nil. exact I.
  - destruct (N.ltb_spec MaxASCII c) as [Hc|Hc]; simpl.
    + repeat split; try lia; try discriminate. apply Forall_nil. exact I.
    + destruct dst as [|dst]; simpl.
      * repeat split; try lia; try discriminate. apply Forall_nil. exact I.
      * destruct (IH dst) as (H1 & H2 & H3 & H4).
        destruct (ianaindex.asciiEncode dst src) as [[wr ns] err]. simpl in *.
        repeat split; try lia.
        -- apply Forall_cons. split; [unfold MaxASCII in Hc; lia|exact H3].
        -- intros Herr. rewrite (H4 Herr). reflexivity.
Qed.

Lemma asciiEncoder_well_behaved : well_behaved (NewEncoder ianaindex.asciiEnc).
Proof.
  intros [] d p atEOF. destruct (asciiEncode_bounds d p) as (H1 & H2 & _ & _).
  destruct (ianaindex.asciiEncode d p) as [[wr ns] err] eqn:Henc.
  exists tt, wr, ns, err. simpl. rewrite Henc. simpl in *. auto.
Qed.

Lemma asciiEncoder_consumes_all : consumes_all (NewEncoder ianaindex.asciiEnc).
Proof.
  intros [] d p atEOF [] wr ns. simpl.
  destruct (asciiEncode_bounds d p) as (_ & _ & _ & H4).
  destruct (ianaindex.asciiEncode d p) as [[wr' ns'] err'] eqn:Henc. simpl in *.
  intros [= <- <- ->]. auto.
Qed.

Lemma asciiEncoder_writes_ascii s d p atEOF s' wr ns err :
  tTransform (NewEncoder ianaindex.asciiEnc) s d p atEOF = Returns (s', (wr, ns, err)) ->
  Forall (fun c => (c < 0x80)%N) wr.
Proof.
  simpl. destruct (asciiEncode_bounds d p) as (_ & _ & H3 & _).
  destruct (ianaindex.asciiEncode d p) as [[wr' ns'] err'] eqn:Henc. simpl in *.
  intros [= _ <- _ _]. exact H3.
Qed.

(** Into us-ascii, with a destination of eight bytes for a text of eleven:
    the transcoder returns within the bounds. *)
Lemma Transform_keeps_contract_witness :
  exists s' out n err,
    Transform (NewEncoder ianaindex.asciiEnc) tt 8
      (Tests.testValue Tests.smiley) true = Returns (s', (out, n, err)) /\
    (length out <= 8)%nat /\ (n <= length (Tests.testValue Tests.smiley))%nat.
Proof. apply Transform_keeps_contract. exact asciiEncoder_well_behaved. Defined.

Lemma Transform_nil_error_consumes_all_witness :
  13%nat = length (Tests.testValue (Tests.smiley ++ Tests.pound)).
Proof.
  apply (Transform_nil_error_consumes_all (NewEncoder ianaindex.asciiEnc) tt 32
           (Tests.testValue (Tests.smiley ++ Tests.pound)) true tt
           (Tests.testValue (Tests.escape_text "263a" ++ Tests.escape_text "00a3"))).
  - exact asciiEncoder_consumes_all.
  - reflexivity.
Defined.

Lemma Transform_writes_encoder_bytes_witness :
  Forall (fun c => (c < 0x80)%N) (Tests.testValue (Tests.escape_text "263a")).
Proof.
  apply (Transform_writes_encoder_bytes (NewEncoder ianaindex.asciiEnc) _ tt 32
           (Tests.testValue Tests.smiley) true tt _ 11%nat None).
  - exact asciiEncoder_writes_ascii.
  - reflexivity.
Defined.

(** ** ASCII text, and text already transcoded *)

(** X6: ASCII text goes through the transcoder unchanged, whatever the
    charset (one that extends ASCII): quotes, braces, backslashes and
    escapes already present are neither escaped nor read. *)
Theorem ascii_text_unchanged f repr dst src atEOF :
  RuneEncoder f repr ->
  Forall (fun c => (c < 0x80)%N) src ->
  (length src <= dst)%nat ->
  Transform (stateless f) tt dst src atEOF = Returns (tt, (src, length src, None)).
Proof.
  intros Hre Hascii Hroom. apply Transform_passes; [|reflexivity].
  simpl. rewrite (re_ascii_run f repr Hre) by assumption. reflexivity.
Qed.

(** A text with an escape in it, into ISO-8859-1. *)
Lemma ascii_text_unchanged_witness :
  Transform (NewEncoder (charmap.encoding charmap.ISO8859_1)) tt 14
    (Tests.testValue (Tests.escape_text "263a")) false =
  Returns (tt, (Tests.testValue (Tests.escape_text "263a"), 14%nat, None)).
Proof.
  apply (ascii_text_unchanged _ (charmap_repertoire charmap.ISO8859_1)).
  - apply charmapEncoder_RuneEncoder. reflexivity.
  - repeat (apply Forall_cons; split; [reflexivity|]). apply Forall_nil. exact I.
  - simpl. lia.
Defined.

(** X7: transcoding into us-ascii twice is transcoding once: the output of
    the transcoder, complete or not, goes through it again unchanged, so no
    escape is ever escaped. *)
Theorem transcoding_twice_changes_nothing dst src atEOF out n err dst' atEOF' :
  Transform (NewEncoder ianaindex.asciiEnc) tt dst src atEOF = Returns (tt, (out, n, err)) ->
  (length out <= dst')%nat ->
  Transform (NewEncoder ianaindex.asciiEnc) tt dst' out atEOF' =
  Returns (tt, (out, length out, None)).
Proof.
  intros Hfirst Hroom.
  assert (Forall (fun c => (c < 0x80)%N) out) as Hascii.
  { unfold Transform in Hfirst.
    apply (Transform_loop_Forall _ _ asciiEncoder_writes_ascii _ _ _ _ _ _ _ _ _ _ _
             (Forall_nil_2 _) Hfirst). }
  apply Transform_passes; [|reflexivity].
  pose proof (re_ascii_run _ _ asciiEncoder_RuneEncoder out dst' atEOF' Hascii Hroom) as Hrun.
  simpl in *. injection Hrun as ->. reflexivity.
Qed.

Lemma transcoding_twice_changes_nothing_witness :
  Transform (NewEncoder ianaindex.asciiEnc) tt 14
    (Tests.testValue (Tests.escape_text "263a")) true =
  Returns (tt, (Tests.testValue (Tests.escape_text "263a"), 14%nat, None)).
Proof.
  apply (transcoding_twice_changes_nothing 32 (Tests.testValue Tests.smiley) true
           (Tests.testValue (Tests.escape_text "263a")) 11%nat None 14 true);
    [reflexivity|simpl; lia].
Defined.

(** ** Input in chunks *)

(** A complete multi-byte rune decodes the same with more bytes after
    it. *)
Lemma DecodeRune_app c p q r size :
  utf8.DecodeRune (c :: p) = (r, size) -> size <> 1%nat ->
  utf8.DecodeRune ((c :: p) ++ q) = (r, size).
Proof.
  destruct p as [|b1 [|b2 [|b3 p]]]; simpl app;
    unfold utf8.DecodeRune, utf8.first;
    repeat (case_match; simpl length in *; try congruence);
    intros [= <- <-] Hsize; try congruence; try reflexivity.
  all: repeat match goal with
       | H : (_ <? _)%nat = true |- _ => apply Nat.ltb_lt in H; vm_compute in H
       | H : (_ <? _)%nat = false |- _ => apply Nat.ltb_ge in H; vm_compute in H
       end; try lia.
Qed.

Lemma emit_emit x n y m r : emit x n (emit y m r) = emit (x ++ y) (n + m) r.
Proof.
  destruct r as [[wr ns] err]. simpl.
  rewrite app_assoc, Nat.add_assoc. reflexivity.
Qed.

Lemma emit_complete w size r o k :
  emit w size r = (o, k, None) ->
  exists o' k', r = (o', k', None) /\ o = w ++ o' /\ k = (size + k')%nat.
Proof.
  destruct r as [[o' k'] err]. simpl. intros [= <- <- ->].
  exists o', k'. auto.
Qed.

(** The walk over a text that begins with a chunk transcoded to its end
    is the walk over the chunk followed by the walk over the rest. *)
Lemma transcode_app repr b : forall n a oa,
  (length a <= n)%nat ->
  transcode repr (length a) a = (oa, length a, None) ->
  transcode repr (length (a ++ b)) (a ++ b) =
  emit oa (length a) (transcode repr (length b) b).
Proof.
  induction n as [|n IH]; intros a oa Hn Ha.
  - destruct a; [|simpl in Hn; lia]. simpl in Ha. injection Ha as <-.
    simpl. destruct (transcode repr (length b) b) as [[wr ns] err]. reflexivity.
  - destruct a as [|c a'].
    { simpl in Ha. injection Ha as <-.
      simpl. destruct (transcode repr (length b) b) as [[wr ns] err]. reflexivity. }
    simpl in Hn. simpl length in *. simpl app. cbn [transcode] in *.
    destruct (N.ltb_spec c 128) as [Hc|Hc].
    + apply emit_complete in Ha as (o' & k' & Ha' & -> & Hk).
      assert (k' = length a') as -> by lia.
      rewrite (IH a' o') by (auto; lia). apply emit_emit.
    + pose proof (DecodeRune_size_pos c a') as Hpos.
      pose proof (DecodeRune_size_le (c :: a')) as Hle.
      destruct (utf8.DecodeRune (c :: a')) as [r size] eqn:Hdec.
      simpl in Hpos, Hle.
      destruct (Nat.eqb_spec size 1) as [->|Hsize]; [discriminate|].
      change (c :: a' ++ b) with ((c :: a') ++ b).
      rewrite (DecodeRune_app c a' b r size Hdec Hsize).
      destruct (Nat.eqb_spec size 1) as [?|_]; [contradiction|].
      assert (drop size ((c :: a') ++ b) = drop size (c :: a') ++ b) as Hdrop
        by (apply drop_app_le; simpl; lia).
      rewrite Hdrop.
      assert (forall w o, emit w size (transcode repr (length a') (drop size (c :: a')))
                = (o, S (length a'), None) ->
              emit w size (transcode repr (length (a' ++ b)) (drop size (c :: a') ++ b))
                = emit o (S (length a')) (transcode repr (length b) b)) as Hstep.
      { intros w o Hw. apply emit_complete in Hw as (o' & k' & Hw' & -> & Hk).
        rewrite (transcode_fuel repr _ (length (drop size (c :: a')))) in Hw'
          by (rewrite length_drop; simpl; lia).
        assert (k' = length (drop size (c :: a'))) as ->
          by (rewrite length_drop; simpl; lia).
        rewrite (transcode_fuel repr _ (length (drop size (c :: a') ++ b)))
          by (rewrite !length_app, length_drop; simpl; lia).
        rewrite (IH _ o') by (auto; rewrite length_drop; simpl; lia).
        rewrite emit_emit. f_equal. rewrite length_drop. simpl. lia. }
      destruct (repr r) as [w|]; [exact (Hstep w oa Ha)|].
      destruct (r =? utf8.RuneError); [discriminate|].
      exact (Hstep _ oa Ha).
Qed.

(** X8: input may come in chunks.  For a chunk that is transcoded to its
    end, transcoding the chunk followed by more text gives the output of
    the chunk followed by the output of the rest: the bytes, the count and
    the error of the rest, moved past the chunk. *)
Theorem chunks_compose f repr dst a b oa atEOF :
  RuneEncoder f repr ->
  transcode repr (length a) a = (oa, length a, None) ->
  (length oa + length (transcode repr (length b) b).1.1 < dst)%nat ->
  Transform (stateless f) tt dst a false = Returns (tt, (oa, length a, None)) /\
  Transform (stateless f) tt dst (a ++ b) atEOF =
    (fun '(s, r) => (s, emit oa (length a) r)) <$> Transform (stateless f) tt dst b atEOF.
Proof.
  intros Hre Ha Hroom.
  destruct (transcode repr (length b) b) as [[ob kb] errb] eqn:Hb. simpl in Hroom.
  split.
  - apply (Transform_loop_transcode f repr Hre false dst a (length a)
             (S (length a)) [] 0%nat oa (length a) None); simpl; try lia.
    rewrite Nat.sub_0_r, drop_0. exact Ha.
  - assert (Transform (stateless f) tt dst b atEOF = Returns (tt, (ob, kb, errb))) as ->.
    { apply (Transform_loop_transcode f repr Hre atEOF dst b (length b)
               (S (length b)) [] 0%nat ob kb errb); simpl; try lia.
      rewrite Nat.sub_0_r, drop_0. exact Hb. }
    simpl.
    apply (Transform_loop_transcode f repr Hre atEOF dst (a ++ b) (length (a ++ b))
             (S (length (a ++ b))) [] 0%nat (oa ++ ob) (length a + kb)%nat errb);
      simpl; try lia.
    + rewrite Nat.sub_0_r, drop_0.
      rewrite (transcode_app repr b (length a) a oa) by (auto; lia).
      rewrite Hb. reflexivity.
    + rewrite length_app. lia.
Qed.

(** The opening of a JSON text up to and including U+263A, and the rest,
    into us-ascii. *)
Lemma chunks_compose_witness :
  Transform (NewEncoder ianaindex.asciiEnc) tt 32
    (firstn 9 (Tests.testValue Tests.smiley)) false =
    Returns (tt, (firstn 12 (Tests.testValue (Tests.escape_text "263a")), 9%nat, None)) /\
  Transform (NewEncoder ianaindex.asciiEnc) tt 32
    (firstn 9 (Tests.testValue Tests.smiley) ++ skipn 9 (Tests.testValue Tests.smiley)) true =
    Returns (tt, (Tests.testValue (Tests.escape_text "263a"), 11%nat, None)).
Proof.
  refine (chunks_compose (fun dst src _ => Returns (ianaindex.asciiEncode dst src))
            ascii_repertoire 32 (firstn 9 (Tests.testValue Tests.smiley))
            (skipn 9 (Tests.testValue Tests.smiley))
            (firstn 12 (Tests.testValue (Tests.escape_text "263a"))) true
            asciiEncoder_RuneEncoder eq_refl _).
  simpl. lia.
Defined.

(** ** [marshal] and [unmarshal] over the driver of x/text *)

(** What holds of every call of [Transform] holds of what [transform.Bytes]
    returns: the bytes are those that the calls wrote, and the error is the
    error of the last call. *)
Lemma doAppend_invariant t (P : byte -> Prop) (Q : option error -> Prop) :
  (forall s d p atEOF s' wr ns err,
     tTransform t s d p atEOF = Returns (s', (wr, ns, err)) -> Forall P wr /\ Q err) ->
  forall fuel s dst src (out : bytes) pSrc (out' : bytes) n err,
    Forall P out ->
    transform.doAppend t fuel s dst src out pSrc = Returns (out', n, err) ->
    Forall P out' /\ Q err.
Proof.
  intros Hcall. induction fuel as [|fuel IH];
    intros s dst src out pSrc out' n err Hout; [discriminate|].
  cbn [transform.doAppend].
  destruct (dst_from dst (length out)) as [d| |]; simpl; try discriminate.
  destruct (slice_from src pSrc) as [p| |]; simpl; try discriminate.
  destruct (tTransform t s d p true) as [[s1 [[wr ns] err1]]| |] eqn:Hc;
    simpl; try discriminate.
  destruct (Hcall _ _ _ _ _ _ _ _ Hc) as [Hwr Herr].
  assert (Forall P (out ++ wr)) as Hout1 by (apply Forall_app; auto).
  destruct err1 as [[]|]; try (intros [= <- <- <-]; auto).
  apply IH. exact Hout1.
Qed.

Section Driver.

Context (L : Libs).

Local Open Scope string_scope.

Hypothesis Hdriver : transform_Bytes L = transform.Bytes.

(** X9: into us-ascii, and so without a charset, [marshal] returns 7-bit
    bytes only. *)
Theorem marshal_us_ascii_7bit charset (v : Value L) out :
  MIME_Encoding L "us-ascii" = (Some ianaindex.asciiEnc, None) ->
  charset = "" \/ charset = "us-ascii" ->
  marshal L charset v = Returns (Ok out) ->
  Forall (fun c => (c < 0x80)%N) out.
Proof.
  intros Hreg Hcharset.
  assert (marshal L charset v = marshal L "us-ascii" v) as ->
    by (destruct Hcharset as [->| ->]; reflexivity).
  unfold marshal. simpl. destruct (json_Marshal L v) as [buf|]; [|discriminate].
  rewrite Hreg. unfold Coder_Bytes. rewrite Hdriver. unfold transform.Bytes.
  destruct (transform.doAppend _ _ _ _ _ _ _) as [[[out' n] err]| |] eqn:Hrun;
    simpl; try discriminate.
  destruct err; intros [= <-].
  apply (doAppend_invariant (jsonTransformer (NewEncoder ianaindex.asciiEnc))
           (fun c => (c < 0x80)%N) (fun _ => True)) in Hrun; [tauto| |apply Forall_nil; exact I].
  intros s d p atEOF s' wr ns err Hcall. split; [|exact I].
  destruct s, s'.
  exact (Transform_loop_Forall _ _ asciiEncoder_writes_ascii _ _ _ _ _ _ _ _ _ _ _
           (Forall_nil_2 _) Hcall).
Qed.

(** X10: [marshal] returns no replacement error.  When the encoders of
    the registry can represent ASCII and [json.Marshal] itself reports no
    replacement error, no error that [marshal] returns is one: the
    encoder's report of a character outside the charset never reaches the
    caller as such.  This says nothing of [marshal] succeeding: it fails
    with [ErrShortSrc] on U+FFFD. *)
Theorem marshal_never_replacement_error charset (v : Value L) err :
  (forall name enc, MIME_Encoding L name = (Some enc, None) ->
     ascii_representable (NewEncoder enc)) ->
  (forall err, json_Marshal L v = Err err -> is_replacementError (Some err) = false) ->
  marshal L charset v = Returns (Err err) ->
  is_replacementError (Some err) = false.
Proof.
  intros Hreg Hjson. unfold marshal.
  destruct (json_Marshal L v) as [buf|jerr]; [|intros [= <-]; apply Hjson; reflexivity].
  destruct (strings.EqualFold _ "utf-8"); [discriminate|].
  destruct (MIME_Encoding L _) as [[enc|] [msg|]] eqn:Hname;
    try (intros [= <-]; reflexivity).
  unfold Coder_Bytes. rewrite Hdriver. unfold transform.Bytes.
  destruct (transform.doAppend _ _ _ _ _ _ _) as [[[out' n] err']| |] eqn:Hrun;
    simpl; try discriminate.
  destruct err' as [err'|]; intros [= <-].
  apply (doAppend_invariant (jsonTransformer (NewEncoder enc))
           (fun _ => True) (fun e => is_replacementError e = false)) in Hrun;
    [tauto| |apply Forall_nil; exact I].
  intros s d p atEOF s' wr ns e Hcall. split.
  - apply Forall_forall. intros. exact I.
  - exact (Transform_loop_no_replacement _ (Hreg _ _ Hname) _ _ _ _ _ _ _ _ _ _ _ Hcall).
Qed.

End Driver.

Section Direct.

Context (L : Libs).

Local Open Scope string_scope.

(** X11: without a charset, or with utf-8 in any case, [unmarshal] hands
    the bytes as they are to [json.Unmarshal]; the registry is not
    consulted and nothing is decoded. *)
Theorem unmarshal_utf8_direct buf charset :
  charset = "" \/ strings.EqualFold charset "utf-8" = true ->
  unmarshal L buf charset = Returns (json_Unmarshal L buf).
Proof.
  intros [->|Hfold]; [reflexivity|]. unfold unmarshal.
  rewrite Hfold, andb_false_r. reflexivity.
Qed.

End Direct.

Lemma marshal_us_ascii_7bit_witness :
  Forall (fun c => (c < 0x80)%N)
    (Tests.testValue (Tests.escape_text "d83d" ++ Tests.escape_text "de02")).
Proof.
  apply (marshal_us_ascii_7bit Tests.libs eq_refl "" (Tests.testValue Tests.joy));
    [reflexivity|left; reflexivity|reflexivity].
Defined.

(** A charmap that extends ASCII reports no replacement error on ASCII
    text. *)
Lemma charmapEncoder_ascii_representable m :
  charmap.asciiSuperset m = true ->
  ascii_representable (NewEncoder (charmap.encoding m)).
Proof.
  intros Hsuper [] d buf atEOF [] wr n err Hascii. simpl.
  revert d wr n err. induction Hascii as [|c buf Hc _ IH]; intros d wr n err.
  - simpl. intros [= <- <- <-]. reflexivity.
  - cbn [length charmap.charmapEncode].
    destruct d as [|d]; [simpl; intros [= <- <- <-]; reflexivity|].
    destruct (N.ltb_spec c utf8.RuneSelf) as [_|Hge]; [|unfold utf8.RuneSelf in Hge; lia].
    rewrite Hsuper.
    destruct (charmap.charmapEncode m (length buf) d buf atEOF)
      as [[[wr' n'] err']| |] eqn:Hrec; simpl; try discriminate.
    intros [= <- <- <-]. apply (IH d wr' n'). rewrite Hrec. reflexivity.
Qed.

Lemma Tests_encoders_ascii_representable name enc :
  MIME_Encoding Tests.libs name = (Some enc, None) ->
  ascii_representable (NewEncoder enc).
Proof.
  simpl. unfold Tests.mimeEncoding.
  destruct (strings.EqualFold name "us-ascii");
    [intros [= <-]; exact asciiEncoder_ascii_representable|].
  destruct (strings.EqualFold name "iso-8859-1");
    [intros [= <-]; apply charmapEncoder_ascii_representable; reflexivity|].
  destruct (strings.EqualFold name "OSD_EBCDIC_DF03_IRV"); discriminate.
Qed.

(** Into us-ascii, the one failure of the transcoder on valid text. *)
Lemma marshal_never_replacement_error_witness :
  is_replacementError (Some ErrShortSrc) = false.
Proof.
  apply (marshal_never_replacement_error Tests.libs eq_refl "us-ascii"
           (Tests.testValue Tests.replacement_char)).
  - exact Tests_encoders_ascii_representable.
  - discriminate.
  - reflexivity.
Defined.

Lemma unmarshal_utf8_direct_witness :
  unmarshal Tests.libs (Tests.testValue Tests.smiley) "UTF-8" =
  Returns (Ok (Tests.testValue Tests.smiley)).
Proof. apply (unmarshal_utf8_direct Tests.libs). right. reflexivity. Defined.

(** ** Requests and responses, written and read back *)

Section RoundTrips.

Context (L : Libs).

Local Open Scope string_scope.

Lemma MarshalRequest_inv method url contentType (x : Value L) req :
  MarshalRequest L method url contentType (Some x) = Returns (Ok req) ->
  exists body,
    marshal L (charset_of L contentType) x = Returns (Ok body) /\
    req = {| http.Method := method; http.URL := url;
             http.Header_ := {[ "Content-Type" := effective_content_type contentType ]};
             http.Body := Some body;
             http.ContentLength := Z.of_nat (length body);
             http.GetBody := Some body |}.
Proof.
  unfold charset_of, effective_content_type, MarshalRequest, NewRequest.
  destruct (ParseMediaType L _) as [[mt params] perr]. simpl.
  destruct (marshal L (param params "charset") x) as [[body|err]| |]; simpl;
    try discriminate.
  destruct (NewRequest_check L method url); [discriminate|].
  intros [= <-]. exists body. split; reflexivity.
Qed.

(** X12: a request that [MarshalRequest] returns for a value is
    consistent: [GetBody] gives the bytes of [Body] again, the content
    length is their number, they are the value marshaled with the charset
    of the content type, and the only header is the content type worked
    with. *)
Theorem MarshalRequest_request_consistent method url contentType (x : Value L) req :
  MarshalRequest L method url contentType (Some x) = Returns (Ok req) ->
  exists body,
    http.Body req = Some body /\ http.GetBody req = Some body /\
    http.ContentLength req = Z.of_nat (length body) /\
    marshal L (charset_of L contentType) x = Returns (Ok body) /\
    http.Header_ req = {[ "Content-Type" := effective_content_type contentType ]} /\
    http.Method req = method /\ http.URL req = url.
Proof.
  intros Hreq. destruct (MarshalRequest_inv _ _ _ _ _ Hreq) as (body & Hm & ->).
  exists body. simpl. repeat split. exact Hm.
Qed.

(** X13: the server reads a request with the charset that the client wrote
    it with: [UnmarshalRequest] on a request made by [MarshalRequest] is
    [unmarshal] on the marshaled bytes, under the same charset name. *)
Theorem request_read_with_charset_written method url contentType (x : Value L) req :
  MarshalRequest L method url contentType (Some x) = Returns (Ok req) ->
  exists body,
    marshal L (charset_of L contentType) x = Returns (Ok body) /\
    UnmarshalRequest L (sent req) = unmarshal L body (charset_of L contentType).
Proof.
  intros Hreq. destruct (MarshalRequest_inv _ _ _ _ _ Hreq) as (body & Hm & ->).
  exists body. split; [exact Hm|].
  unfold UnmarshalRequest, sent, http.Get, charset_of. simpl.
  rewrite lookup_singleton_eq. simpl.
  destruct (ParseMediaType L _) as [[mt params] perr]. reflexivity.
Qed.

Lemma MarshalRequest_default method url (x : Value L) b :
  param (ParseMediaType L default_content_type).1.2 "charset" = "utf-8" ->
  NewRequest_check L method url = None ->
  json_Marshal L x = Ok b ->
  MarshalRequest L method url "" (Some x) =
  Returns (Ok {| http.Method := method; http.URL := url;
                 http.Header_ := {[ "Content-Type" := default_content_type ]};
                 http.Body := Some b;
                 http.ContentLength := Z.of_nat (length b);
                 http.GetBody := Some b |}).
Proof.
  intros Hdefault Hcheck Hjson.
  change (MarshalRequest L method url "" (Some x))
    with (MarshalRequest L method url default_content_type (Some x)).
  rewrite MarshalRequest_value by reflexivity.
  rewrite Hdefault. unfold marshal. simpl. rewrite Hjson. simpl.
  unfold request_with_body. rewrite Hcheck. reflexivity.
Qed.

(** X14: with the default content type a value makes the round trip of a
    request: what [UnmarshalRequest] stores is what [json.Unmarshal] makes
    of the output of [json.Marshal]. *)
Theorem default_request_round_trip method url (x : Value L) b :
  param (ParseMediaType L default_content_type).1.2 "charset" = "utf-8" ->
  NewRequest_check L method url = None ->
  json_Marshal L x = Ok b ->
  exists req,
    MarshalRequest L method url "" (Some x) = Returns (Ok req) /\
    UnmarshalRequest L (sent req) = Returns (json_Unmarshal L b).
Proof.
  intros Hdefault Hcheck Hjson.
  eexists. split; [apply MarshalRequest_default; eassumption|].
  unfold UnmarshalRequest, sent, http.Get. simpl.
  rewrite lookup_singleton_eq. simpl.
  destruct (ParseMediaType L default_content_type) as [[mt params] perr].
  simpl in Hdefault. rewrite Hdefault. reflexivity.
Qed.

(** X15: when the value cannot be marshaled, [WriteResponse] returns the
    error and leaves the response alone: no header is set, no status and no
    body is written. *)
Theorem WriteResponse_error_untouched {W} `{!http.ResponseWriter W} (w : W) code
    contentType (x : Value L) err :
  marshal L (charset_of L contentType) x = Returns (Err err) ->
  WriteResponse L w code contentType (Some x) = Returns (w, Some err).
Proof.
  unfold charset_of, effective_content_type, WriteResponse.
  destruct (ParseMediaType L _) as [[mt params] perr]. simpl.
  intros ->. reflexivity.
Qed.

Lemma WriteResponse_recorder code contentType (x : Value L) body :
  marshal L (charset_of L contentType) x = Returns (Ok body) ->
  WriteResponse L http.NewRecorder code contentType (Some x) =
  Returns ({| http.Code := (if 0 <? code then code else 200)%Z;
              http.wroteHeader := true;
              http.HeaderMap :=
                http.Set_ (http.Set_ ∅ "Content-Type" (effective_content_type contentType))
                  "Content-Length" (pretty (Z.of_nat (length body)));
              http.Written := body |}, None).
Proof.
  intros Hm. unfold charset_of, effective_content_type, default_content_type in *.
  unfold WriteResponse.
  set (ct := if String.eqb contentType "" then _ else _) in *. clearbody ct.
  destruct (ParseMediaType L ct) as [[mt params] perr] eqn:Hparse. simpl in Hm.
  rewrite Hm. simpl. destruct (0 <? code)%Z; reflexivity.
Qed.

Lemma Get_Set_ne (h : http.Header) k k' v :
  k <> k' -> http.Get (http.Set_ h k' v) k = http.Get h k.
Proof. intros Hne. unfold http.Get, http.Set_. rewrite lookup_insert_ne by congruence. reflexivity. Qed.

Lemma Get_Set_eq (h : http.Header) k v : http.Get (http.Set_ h k v) k = v.
Proof. unfold http.Get, http.Set_. rewrite lookup_insert_eq. reflexivity. Qed.

(** X16: [WriteResponse] into a recorder, read back: the recorder holds
    the status code (200 when none was given), the length of the body as
    [Content-Length], and the marshaled bytes; and [UnmarshalResponse] on
    its result is [unmarshal] on those bytes under the same charset
    name. *)
Theorem response_read_with_charset_written code contentType (x : Value L) body status :
  marshal L (charset_of L contentType) x = Returns (Ok body) ->
  exists rr,
    WriteResponse L http.NewRecorder code contentType (Some x) = Returns (rr, None) /\
    http.Code rr = (if 0 <? code then code else 200)%Z /\
    http.Written rr = body /\
    http.Get (http.HeaderMap rr) "Content-Length" = pretty (Z.of_nat (length body)) /\
    http.Get (http.HeaderMap rr) "Content-Type" = effective_content_type contentType /\
    UnmarshalResponse L (Result status rr) = unmarshal L body (charset_of L contentType).
Proof.
  intros Hm. eexists. split; [apply WriteResponse_recorder, Hm|]. simpl.
  rewrite Get_Set_eq, Get_Set_ne, Get_Set_eq by discriminate.
  repeat split. unfold UnmarshalResponse, Result, charset_of. simpl.
  rewrite Get_Set_ne, Get_Set_eq by discriminate.
  destruct (ParseMediaType L _) as [[mt params] perr]. reflexivity.
Qed.

End RoundTrips.

Lemma MarshalRequest_request_consistent_witness :
  let req :=
    {| http.Method := "POST"; http.URL := "http://example.com/";
       http.Header_ := {[ "Content-Type" := "application/json;charset=utf-8" ]};
       http.Body := Some (Tests.testValue Tests.smiley);
       http.ContentLength := 11;
       http.GetBody := Some (Tests.testValue Tests.smiley) |} in
  exists body,
    http.Body req = Some body /\ http.GetBody req = Some body /\
    http.ContentLength req = Z.of_nat (length body) /\
    marshal Tests.libs "utf-8" (Tests.testValue Tests.smiley) = Returns (Ok body) /\
    http.Header_ req = {[ "Content-Type" := "application/json;charset=utf-8" ]} /\
    http.Method req = "POST" /\ http.URL req = "http://example.com/".
Proof.
  intros req.
  apply (MarshalRequest_request_consistent Tests.libs "POST" "http://example.com/" ""
           (Tests.testValue Tests.smiley) req).
  reflexivity.
Defined.

Lemma request_read_with_charset_written_witness :
  exists body,
    marshal Tests.libs "us-ascii" (Tests.testValue Tests.smiley) = Returns (Ok body) /\
    UnmarshalRequest Tests.libs
      (sent {| http.Method := "POST"; http.URL := "http://example.com/";
               http.Header_ := {[ "Content-Type" := "application/json;charset=us-ascii" ]};
               http.Body := Some (Tests.testValue (Tests.escape_text "263a"));
               http.ContentLength := 14;
               http.GetBody := Some (Tests.testValue (Tests.escape_text "263a")) |}) =
    unmarshal Tests.libs body "us-ascii".
Proof.
  apply (request_read_with_charset_written Tests.libs "POST" "http://example.com/"
           "application/json;charset=us-ascii" (Tests.testValue Tests.smiley)).
  reflexivity.
Defined.

Lemma default_request_round_trip_witness :
  exists req,
    MarshalRequest Tests.libs "POST" "http://example.com/" ""
      (Some (Tests.testValue Tests.smiley)) = Returns (Ok req) /\
    UnmarshalRequest Tests.libs (sent req) =
    Returns (Ok (Tests.testValue Tests.smiley)).
Proof.
  apply (default_request_round_trip Tests.libs "POST" "http://example.com/"
           (Tests.testValue Tests.smiley) (Tests.testValue Tests.smiley));
    reflexivity.
Defined.

Lemma WriteResponse_error_untouched_witness :
  WriteResponse Tests.libs http.NewRecorder 200 "application/json;charset=made-up"
    (Some (Tests.testValue Tests.smiley)) =
  Returns (http.NewRecorder, Some (ianaindexError "ianaindex: invalid encoding name")).
Proof.
  apply (WriteResponse_error_untouched Tests.libs http.NewRecorder 200
           "application/json;charset=made-up" (Tests.testValue Tests.smiley)).
  reflexivity.
Defined.

Lemma response_read_with_charset_written_witness :
  exists rr,
    WriteResponse Tests.libs http.NewRecorder 0 "application/json;charset=iso-8859-1"
      (Some (Tests.testValue Tests.pound)) = Returns (rr, None) /\
    http.Code rr = 200%Z /\
    http.Written rr = Tests.testValue [0xA3%N] /\
    http.Get (http.HeaderMap rr) "Content-Length" = "9" /\
    http.Get (http.HeaderMap rr) "Content-Type" = "application/json;charset=iso-8859-1" /\
    UnmarshalResponse Tests.libs (Result "200 OK" rr) =
    unmarshal Tests.libs (Tests.testValue [0xA3%N]) "iso-8859-1".
Proof.
  apply (response_read_with_charset_written Tests.libs 0
           "application/json;charset=iso-8859-1" (Tests.testValue Tests.pound)
           (Tests.testValue [0xA3%N]) "200 OK").
  reflexivity.
Defined.

(** ** The client *)

Section ClientProps.

Context (L : Libs) {World Context_ : Type} (DefaultHTTPClient : Doer World Context_).

Local Open Scope string_scope.

Local Abbreviation Client_Do' := (Client_Do L World Context_ DefaultHTTPClient).

(** X17: when the request value cannot be marshaled, [Do] returns the
    error of [marshal] and sends nothing: the transport is not called,
    whichever it is. *)
Theorem Do_marshal_error_sends_nothing c w ctx method url contentType (x : Value L) err :
  marshal L (charset_of L contentType) x = Returns (Err err) ->
  Client_Do' c w ctx method url contentType (Some x) = (w, Returns (inr (plain err))).
Proof.
  intros Hm. unfold Client_Do, MarshalRequest.
  unfold charset_of, effective_content_type, default_content_type in Hm.
  destruct (ParseMediaType L _) as [[mt params] perr]. simpl in Hm.
  rewrite Hm. reflexivity.
Qed.

(** X18: a response whose status code is outside 200..299 makes [Do]
    return a [*ResponseError] that holds the response and its whole body,
    whatever the content type of the response and whatever the client
    accepts as JSON; nothing is unmarshaled. *)
Theorem Do_non_success_gives_ResponseError c w w' ctx method url contentType req hreq
    hresp rd :
  MarshalRequest L method url contentType req = Returns (Ok hreq) ->
  transport DefaultHTTPClient c w ctx hreq = (w', Ok hresp) ->
  (http.StatusCode (in_Response hresp) < 200 \/
   300 <= http.StatusCode (in_Response hresp))%Z ->
  in_RespBody hresp = Some rd ->
  read_err rd = None ->
  Client_Do' c w ctx method url contentType req =
  (w', Returns (inr (responseError
                       {| Response := in_Response hresp; RBody := read_bytes rd |}))).
Proof.
  unfold transport. intros Hreq Hdo Hcode Hbody Hread.
  unfold Client_Do. rewrite Hreq. simpl. rewrite Hdo.
  replace ((200 <=? _) && (_ <? 300))%Z with false
    by (symmetry; apply andb_false_iff; rewrite Z.leb_gt, Z.ltb_ge; lia).
  simpl. unfold newResponseError, ReadAll. rewrite Hbody. simpl.
  rewrite Hread. reflexivity.
Qed.

(** X19: a response with a status code in 200..299 whose content type the
    client does not accept makes [Do] return the error that names the
    [Content-Type] header; it is not a [*ResponseError], and the body is
    neither read nor unmarshaled. *)
Theorem Do_unsupported_content_type c w w' ctx method url contentType req hreq hresp :
  MarshalRequest L method url contentType req = Returns (Ok hreq) ->
  transport DefaultHTTPClient c w ctx hreq = (w', Ok hresp) ->
  (200 <= http.StatusCode (in_Response hresp) < 300)%Z ->
  accepts L c (http.Get (http.RespHeader (in_Response hresp)) "Content-Type") = false ->
  Client_Do' c w ctx method url contentType req =
  (w', Returns (inr (unsupportedContentType
                       (http.Get (http.RespHeader (in_Response hresp)) "Content-Type")))).
Proof.
  unfold transport, accepts. intros Hreq Hdo Hcode Hct.
  unfold Client_Do. rewrite Hreq. simpl. rewrite Hdo.
  replace ((200 <=? _) && (_ <? 300))%Z with true
    by (symmetry; apply andb_true_iff; rewrite Z.leb_le, Z.ltb_lt; lia).
  simpl. rewrite Hct. reflexivity.
Qed.

(** X20: [Do] against a server that answers with [WriteResponse] and the
    default content type gives the value that [json.Unmarshal] makes of the
    [json.Marshal] output of the server's value, whatever the request
    was. *)
Theorem Do_reads_WriteResponse c w w' ctx method url contentType req hreq (y : Value L)
    b code status rr :
  param (ParseMediaType L default_content_type).1.2 "charset" = "utf-8" ->
  IsJSONContentType L default_content_type = true ->
  Client_IsJSONContentType World Context_ c = None ->
  json_Marshal L y = Ok b ->
  (code <= 0 \/ 200 <= code < 300)%Z ->
  WriteResponse L http.NewRecorder code "" (Some y) = Returns (rr, None) ->
  MarshalRequest L method url contentType req = Returns (Ok hreq) ->
  transport DefaultHTTPClient c w ctx hreq = (w', Ok (Result status rr)) ->
  Client_Do' c w ctx method url contentType req =
  (w', Returns match json_Unmarshal L b with
               | Ok v => inl v
               | Err err => inr (plain err)
               end).
Proof.
  unfold transport. intros Hdefault Hjson Hc Hy Hcode Hwrite Hreq Hdo.
  assert (marshal L "utf-8" y = Returns (Ok b)) as Hm
    by (unfold marshal; simpl; rewrite Hy; reflexivity).
  rewrite (WriteResponse_recorder L code "" y b) in Hwrite
    by (unfold charset_of, effective_content_type; simpl; rewrite Hdefault; exact Hm).
  injection Hwrite as <-.
  unfold Client_Do. rewrite Hreq. simpl. rewrite Hdo. simpl.
  replace ((200 <=? _) && (_ <? 300))%Z with true
    by (symmetry; apply andb_true_iff; rewrite Z.leb_le, Z.ltb_lt;
        destruct (0 <? code)%Z eqn:Hpos; [apply Z.ltb_lt in Hpos|]; lia).
  simpl. rewrite Hc. simpl.
  rewrite Get_Set_ne, Get_Set_eq by discriminate.
  change (effective_content_type "") with default_content_type.
  rewrite Hjson. simpl.
  unfold UnmarshalResponse, Result. simpl.
  rewrite Get_Set_ne, Get_Set_eq by discriminate.
  change (effective_content_type "") with default_content_type.
  destruct (ParseMediaType L default_content_type) as [[mt params] perr].
  simpl in Hdefault. rewrite Hdefault. unfold unmarshal. simpl.
  destruct (json_Unmarshal L b); reflexivity.
Qed.

(** X21: the message of the error that [Do] returns for a response outside
    200..299 with a text body in UTF-8 of fewer than 256 bytes is that
    body, trimmed. *)
Theorem Do_error_message_is_text_body c w w' ctx method url contentType req hreq hresp
    rd mt params :
  MarshalRequest L method url contentType req = Returns (Ok hreq) ->
  transport DefaultHTTPClient c w ctx hreq = (w', Ok hresp) ->
  (http.StatusCode (in_Response hresp) < 200 \/
   300 <= http.StatusCode (in_Response hresp))%Z ->
  in_RespBody hresp = Some rd ->
  read_err rd = None ->
  ParseMediaType L (http.Get (http.RespHeader (in_Response hresp)) "Content-Type") =
    (mt, params, None) ->
  strings.HasPrefix mt "text/" = true ->
  param params "charset" = "" \/ strings.EqualFold (param params "charset") "utf-8" = true ->
  (0 < length (read_bytes rd) < 256)%nat ->
  exists e,
    Client_Do' c w ctx method url contentType req = (w', Returns (inr (responseError e))) /\
    Error L e = Returns (TrimSpace L (read_bytes rd)).
Proof.
  unfold transport. intros Hreq Hdo Hcode Hbody Hread Hparse Htext Hcs Hlen.
  eexists. split.
  - unfold Client_Do. rewrite Hreq. simpl. rewrite Hdo.
    replace ((200 <=? _) && (_ <? 300))%Z with false
      by (symmetry; apply andb_false_iff; rewrite Z.leb_gt, Z.ltb_ge; lia).
    simpl. unfold newResponseError, ReadAll. rewrite Hbody. simpl.
    rewrite Hread. reflexivity.
  - unfold Error. simpl. rewrite Hparse, Htext. simpl.
    assert (negb (String.eqb (param params "charset") "") &&
            negb (strings.EqualFold (param params "charset") "utf-8") = false) as ->.
    { destruct Hcs as [-> | ->]; [reflexivity|]. apply andb_false_r. }
    simpl.
    assert ((0 <? length (read_bytes rd))%nat = true) as -> by (apply Nat.ltb_lt; lia).
    assert ((length (read_bytes rd) <? 256)%nat = true) as -> by (apply Nat.ltb_lt; lia).
    reflexivity.
Qed.

End ClientProps.

Lemma Do_marshal_error_sends_nothing_witness :
  Client_Do Tests.libs (list http.Request) unit (answering (Ok notJSON))
    (DefaultClient _ _) [] tt "POST" "http://example.com/"
    "application/json;charset=made-up" (Some (Tests.testValue Tests.smiley)) =
  ([], Returns (inr (plain (ianaindexError "ianaindex: invalid encoding name")))).
Proof.
  apply (Do_marshal_error_sends_nothing Tests.libs (answering (Ok notJSON))
           (DefaultClient _ _) [] tt "POST" "http://example.com/"
           "application/json;charset=made-up" (Tests.testValue Tests.smiley)).
  reflexivity.
Defined.

Lemma Do_non_success_gives_ResponseError_witness :
  let hreq :=
    {| http.Method := "POST"; http.URL := "http://example.com/";
       http.Header_ := {[ "Content-Type" := "application/json;charset=utf-8" ]};
       http.Body := Some (Tests.testValue Tests.smiley);
       http.ContentLength := 11;
       http.GetBody := Some (Tests.testValue Tests.smiley) |} in
  Client_Do Tests.libs (list http.Request) unit (answering (Ok notFound))
    (DefaultClient _ _) [] tt "POST" "http://example.com/" ""
    (Some (Tests.testValue Tests.smiley)) =
  ([hreq],
   Returns (inr (responseError
                   {| Response := in_Response notFound;
                      RBody := bytes_of_string "404 page not found" ++ [10%N] |}))).
Proof.
  intros hreq.
  apply (Do_non_success_gives_ResponseError Tests.libs (answering (Ok notFound))
           (DefaultClient _ _) [] [hreq] tt "POST" "http://example.com/" ""
           (Some (Tests.testValue Tests.smiley)) hreq notFound
           (NewReader (bytes_of_string "404 page not found" ++ [10%N])));
    [reflexivity|reflexivity|simpl; lia|reflexivity|reflexivity].
Defined.

Lemma Do_unsupported_content_type_witness :
  let hreq :=
    {| http.Method := "POST"; http.URL := "http://example.com/";
       http.Header_ := {[ "Content-Type" := "application/json;charset=utf-8" ]};
       http.Body := Some (Tests.testValue Tests.smiley);
       http.ContentLength := 11;
       http.GetBody := Some (Tests.testValue Tests.smiley) |} in
  Client_Do Tests.libs (list http.Request) unit (answering (Ok notJSON))
    (DefaultClient _ _) [] tt "POST" "http://example.com/" ""
    (Some (Tests.testValue Tests.smiley)) =
  ([hreq], Returns (inr (unsupportedContentType "text/plain; charset=utf-8"))).
Proof.
  intros hreq.
  apply (Do_unsupported_content_type Tests.libs (answering (Ok notJSON))
           (DefaultClient _ _) [] [hreq] tt "POST" "http://example.com/" ""
           (Some (Tests.testValue Tests.smiley)) hreq notJSON);
    [reflexivity|reflexivity|simpl; lia|reflexivity].
Defined.

Lemma Do_reads_WriteResponse_witness :
  let hreq :=
    {| http.Method := "GET"; http.URL := "http://example.com/";
       http.Header_ := ∅; http.Body := None; http.ContentLength := 0;
       http.GetBody := None |} in
  let rr :=
    {| http.Code := 200; http.wroteHeader := true;
       http.HeaderMap :=
         http.Set_ (http.Set_ ∅ "Content-Type" "application/json;charset=utf-8")
           "Content-Length" "11";
       http.Written := Tests.testValue Tests.smiley |} in
  Get Tests.libs (list http.Request) unit (answering (Ok (Result "200 OK" rr)))
    [] tt "http://example.com/" =
  ([hreq], Returns (inl (Tests.testValue Tests.smiley))).
Proof.
  intros hreq rr.
  apply (Do_reads_WriteResponse Tests.libs (answering (Ok (Result "200 OK" rr)))
           (DefaultClient _ _) [] [hreq] tt "GET" "http://example.com/" "" None hreq
           (Tests.testValue Tests.smiley) (Tests.testValue Tests.smiley) 200 "200 OK" rr);
    [reflexivity|reflexivity|reflexivity|reflexivity|lia|reflexivity|reflexivity
    |reflexivity].
Defined.

Lemma Do_error_message_is_text_body_witness :
  let hreq :=
    {| http.Method := "POST"; http.URL := "http://example.com/";
       http.Header_ := {[ "Content-Type" := "application/json;charset=utf-8" ]};
       http.Body := Some (Tests.testValue Tests.smiley);
       http.ContentLength := 11;
       http.GetBody := Some (Tests.testValue Tests.smiley) |} in
  exists e,
    Client_Do Tests.libs (list http.Request) unit (answering (Ok notFound))
      (DefaultClient _ _) [] tt "POST" "http://example.com/" ""
      (Some (Tests.testValue Tests.smiley)) = ([hreq], Returns (inr (responseError e))) /\
    Error Tests.libs e = Returns (bytes_of_string "404 page not found").
Proof.
  intros hreq.
  apply (Do_error_message_is_text_body Tests.libs (answering (Ok notFound))
           (DefaultClient _ _) [] [hreq] tt "POST" "http://example.com/" ""
           (Some (Tests.testValue Tests.smiley)) hreq notFound
           (NewReader (bytes_of_string "404 page not found" ++ [10%N]))
           "text/plain" {[ "charset" := "utf-8" ]});
    [reflexivity|reflexivity|simpl; lia|reflexivity|reflexivity|reflexivity
    |reflexivity|right; reflexivity|simpl; lia].
Defined.

(** ** Written as us-ascii and read back *)

Lemma asciiDecode_ascii (b : bytes) : forall d,
  Forall (fun c => (c < 0x80)%N) b -> (length b <= d)%nat ->
  ianaindex.asciiDecode d b = (b, length b, None).
Proof.
  induction b as [|c b IH]; intros d Hb Hd; [reflexivity|].
  apply Forall_cons in Hb as [Hc Hb]. simpl in Hd. simpl.
  assert ((MaxASCII <? c)%N = false) as -> by (apply N.ltb_ge; unfold MaxASCII; lia).
  destruct d as [|d]; [lia|]. rewrite (IH d) by (auto; lia). reflexivity.
Qed.

Lemma Bytes_asciiDecode (b : bytes) :
  Forall (fun c => (c < 0x80)%N) b ->
  transform.Bytes (NewDecoder ianaindex.asciiEnc) b = Returns (b, length b, None).
Proof.
  intros Hb. unfold transform.Bytes.
  replace (2 * length b + 16)%nat with (S (2 * length b + 15)) by lia.
  cbn [transform.doAppend]. unfold dst_from, slice_from. simpl.
  rewrite Nat.sub_0_r, drop_0. rewrite asciiDecode_ascii by auto. reflexivity.
Qed.

Section ReadBack.

Context (L : Libs).

Local Open Scope string_scope.

Hypothesis Hdriver : transform_Bytes L = transform.Bytes.

(** X22: what [marshal] writes as us-ascii, [unmarshal] gives to the JSON
    parser byte for byte: the decoder of the charset changes nothing of
    it.  With the escapes parsing back to the characters they were written
    for, this is the round trip of a value through us-ascii. *)
Theorem marshal_us_ascii_read_back (v : Value L) out :
  MIME_Encoding L "us-ascii" = (Some ianaindex.asciiEnc, None) ->
  marshal L "us-ascii" v = Returns (Ok out) ->
  unmarshal L out "us-ascii" = Returns (json_Unmarshal L out).
Proof.
  intros Hreg Hm.
  assert (Forall (fun c => (c < 0x80)%N) out) as Hout.
  { revert Hm. unfold marshal. simpl.
    destruct (json_Marshal L v) as [buf|]; [|discriminate].
    rewrite Hreg. unfold Coder_Bytes. rewrite Hdriver. unfold transform.Bytes.
    destruct (transform.doAppend _ _ _ _ _ _ _) as [[[out' n] err]| |] eqn:Hrun;
      simpl; try discriminate.
    destruct err; intros [= <-].
    apply (doAppend_invariant (jsonTransformer (NewEncoder ianaindex.asciiEnc))
             (fun c => (c < 0x80)%N) (fun _ => True)) in Hrun;
      [tauto| |apply Forall_nil; exact I].
    intros s d p atEOF s' wr ns err Hcall. split; [|exact I].
    destruct s, s'.
    exact (Transform_loop_Forall _ _ asciiEncoder_writes_ascii _ _ _ _ _ _ _ _ _ _ _
             (Forall_nil_2 _) Hcall). }
  unfold unmarshal. simpl. rewrite Hreg. unfold Coder_Bytes.
  rewrite Hdriver, Bytes_asciiDecode by exact Hout. reflexivity.
Qed.

End ReadBack.

Lemma marshal_us_ascii_read_back_witness :
  unmarshal Tests.libs (Tests.testValue (Tests.escape_text "263a")) "us-ascii" =
  Returns (Ok (Tests.testValue (Tests.escape_text "263a"))).
Proof.
  apply (marshal_us_ascii_read_back Tests.libs eq_refl (Tests.testValue Tests.smiley));
    reflexivity.
Defined.

Lemma escape_parses_back_witness :
  exists h3 h2 h1 h0,
    escape 0x263a = Some [92; 117; h3; h2; h1; h0]%N /\
    Forall (fun h => lower_hex_digit h = true) [h3; h2; h1; h0] /\
    parse_u_escape [92; 117; h3; h2; h1; h0]%N = Some 0x263a.
Proof. apply (proj1 (escape_parses_back 0x263a)). lia. Defined.
